(** * inadyn: the cache/seed subsystem (src/cache.c)

    A shallow embedding of [nslookup], [read_one], [read_cache_file] and
    [write_cache_file], together with a small model of the part of the
    operating system they talk to (stdio on a file system, the stub
    resolver, the log), and the properties of the cache subsystem proved
    on it. *)

From Stdlib Require Import ZArith Ascii String.
From stdpp Require Import base tactics option list strings gmap.

Local Open Scope Z_scope.

(** ** C strings and character arrays *)

Module CStr.

Definition NUL : ascii := Ascii.zero.
Definition LF : ascii := "010"%char.

(** The string held by a character array: the characters before the
    first NUL. *)
Fixpoint cstr (buf : list ascii) : list ascii :=
  match buf with
  | [] => []
  | c :: rest => if decide (c = NUL) then [] else c :: cstr rest
  end.

(** [memset (a, c, sizeof a)] on a whole array [a] of [n] characters. *)
Definition memset (c : ascii) (n : nat) : list ascii := replicate n c.

(** [strncpy (dst, src, sizeof dst)] on a whole array [dst] of [n]
    characters: at most [n] characters of the string in [src], the rest
    of [dst] filled with NUL.  No NUL is written when the string has [n]
    characters or more. *)
Definition strncpy (src : list ascii) (n : nat) : list ascii :=
  take n (cstr src) ++ replicate (n - length (cstr src)) NUL.

(** [snprintf (dst, n, ...)]: the formatted text cut to [n - 1]
    characters. *)
Definition snprintf (n : nat) (text : string) : string :=
  String.substring 0 (n - 1) text.

(** What one [fgets] call with room for [k] characters takes from the
    input: characters up to and including the first line feed, at most
    [k] of them. *)
Fixpoint read_line (k : nat) (input : list ascii) : list ascii :=
  match k, input with
  | S k', c :: rest =>
      if decide (c = LF) then [c] else c :: read_line k' rest
  | _, _ => []
  end.

(** A text of one line: no line feed, except possibly as its last
    character. *)
Fixpoint one_line (s : list ascii) : bool :=
  match s with
  | [] => true
  | c :: rest =>
      (bool_decide (c ≠ LF) || bool_decide (rest = [])) && one_line rest
  end.

End CStr.
Export CStr.

(** ** The operating system *)

Inductive fmode := ModeR | ModeW.

(** Error codes of [getaddrinfo]; all of them are non-zero in C. *)
Inductive eai :=
| EAI_AGAIN | EAI_BADFLAGS | EAI_FAIL | EAI_FAMILY | EAI_MEMORY
| EAI_NODATA | EAI_NONAME | EAI_SERVICE | EAI_SOCKTYPE | EAI_SYSTEM.

Inductive loglevel := LOG_INFO | LOG_WARNING.

(** The four messages of cache.c, with their arguments. *)
Inductive logmsg :=
| MsgResolved (name : string) (address : list ascii)
| MsgResolveFailed (name : string) (error : eai)
| MsgCachedIP (address : list ascii)
| MsgLastUpdate (name : string) (mtime : Z).

(** What a run does to the outside, in order. *)
Inductive event :=
| EvResInit
| EvFopen (path : string) (mode : fmode) (opened : bool)
| EvFgets (path : string)
| EvFstat (path : string)
| EvFprintf (path : string) (text : list ascii)
| EvFclose (path : string)
| EvGetaddrinfo (node : string)
| EvGetnameinfo
| EvFreeaddrinfo
| EvLogit (level : loglevel) (msg : logmsg).

Definition is_res_init (e : event) : bool :=
  match e with EvResInit => true | _ => false end.

Definition is_resolver_call (e : event) : bool :=
  match e with EvGetaddrinfo _ | EvGetnameinfo => true | _ => false end.

Definition is_lookup (e : event) : bool :=
  match e with EvGetaddrinfo _ => true | _ => false end.

(** How many events of a kind a run has: a call counter. *)
Definition count_events (p : event → bool) (t : list event) : nat :=
  length (List.filter p t).

(** The paths handed to [fopen]. *)
Definition opened_paths (t : list event) : list string :=
  omap (fun e => match e with EvFopen p _ _ => Some p | _ => None end) t.

(** The host names handed to [getaddrinfo]. *)
Definition lookup_nodes (t : list event) : list string :=
  omap (fun e => match e with EvGetaddrinfo n => Some n | _ => None end) t.

Arguments opened_paths : simpl never.
Arguments lookup_nodes : simpl never.
Arguments count_events : simpl never.

Record file := File { f_data : list ascii; f_mtime : Z }.

(** An open stream.  Every stream of cache.c is opened, used once from its
    start and closed inside one function, so it is identified by the path
    it was opened on; it has the mode it was opened in and the output that
    waits in its buffer. *)
Record FILE := Stream {
  fp_path : string;
  fp_mode : fmode;
  fp_buffer : list ascii;
}.

Record stat := Stat { st_mtime : Z }.

(** [struct sockaddr]; cache.c only passes it from [getaddrinfo] to
    [getnameinfo]. *)
Record sockaddr := Sockaddr { sa_family : Z; sa_data : list Z }.

(** A reply of [getaddrinfo]: an error code, or 0 and a list of results
    that has a first element. *)
Inductive gai_reply :=
| GaiError (error : eai)
| GaiResult (ai_addr : sockaddr) (ai_next : list sockaddr).

(** The machine as cache.c sees it.  A path that is not among the files is
    one that [fopen (path, "r")] cannot open. *)
Record world := World {
  (** the files the process finds, by path *)
  w_files : gmap string file;
  (** may the process create or overwrite a file at this path *)
  w_may_write : string → bool;
  (** does [fprintf] to a stream on this path take the text *)
  w_print_ok : string → bool;
  (** what reaches the file when a stream on this path is closed: all of
      the buffered output ([None]), or only so many characters of it, the
      rest lost to a full disk or an I/O error *)
  w_flush : string → option nat;
  (** the wall clock *)
  w_time : Z;
  (** what the resolver answers for a host name *)
  w_lookup : string → gai_reply;
  (** the numeric form of an address, where there is one *)
  w_numerichost : sockaddr → option (list ascii);
}.

Definition set_files (fs : gmap string file) (w : world) : world :=
  World fs (w_may_write w) (w_print_ok w) (w_flush w) (w_time w)
        (w_lookup w) (w_numerichost w).

Definition set_time (t : Z) (w : world) : world :=
  World (w_files w) (w_may_write w) (w_print_ok w) (w_flush w) t
        (w_lookup w) (w_numerichost w).

(** *** Computations: state passing over the world, with the events *)

Definition M (A : Type) : Type := world → A * world * list event.

Definition result {A} (r : A * world * list event) : A := r.1.1.
Definition final {A} (r : A * world * list event) : world := r.1.2.
Definition events {A} (r : A * world * list event) : list event := r.2.

Definition ret {A} (x : A) : M A := fun w => (x, w, []).

Definition bind {A B} (m : M A) (k : A → M B) : M B :=
  fun w =>
    let r1 := m w in
    let r2 := k (result r1) (final r1) in
    (result r2, final r2, events r1 ++ events r2).

Definition emit (e : event) : M unit := fun w => (tt, w, [e]).

Notation "x <- m ;; k" := (bind m (fun x => k))
  (at level 100, m at next level, right associativity).
Notation "m ;;; k" := (bind m (fun _ => k))
  (at level 100, right associativity).

Fixpoint mapM {A B} (f : A → M B) (l : list A) : M (list B) :=
  match l with
  | [] => ret []
  | x :: rest => y <- f x ;; ys <- mapM f rest ;; ret (y :: ys)
  end.

(** *** The calls cache.c makes *)

Definition res_init : M unit := emit EvResInit.

Definition logit (level : loglevel) (msg : logmsg) : M unit :=
  emit (EvLogit level msg).

(** [fopen]: mode "r" needs a file at the path; mode "w" creates the file
    or empties it, which stamps it with the time. *)
Definition fopen (path : string) (mode : fmode) : M (option FILE) :=
  fun w =>
    match mode with
    | ModeR =>
        match w_files w !! path with
        | Some _ => (Some (Stream path ModeR []), w, [EvFopen path ModeR true])
        | None => (None, w, [EvFopen path ModeR false])
        end
    | ModeW =>
        if w_may_write w path
        then (Some (Stream path ModeW []),
              set_files (<[path := File [] (w_time w)]> (w_files w)) w,
              [EvFopen path ModeW true])
        else (None, w, [EvFopen path ModeW false])
    end.

(** [fgets (buf, n, fp)] on a fresh stream: NULL at end of file, else one
    line of at most [n - 1] characters. *)
Definition fgets (n : nat) (fp : FILE) : M (option (list ascii)) :=
  fun w =>
    (match n, w_files w !! fp_path fp with
     | S k, Some (File (c :: rest) _) => Some (read_line k (c :: rest))
     | _, _ => None
     end, w, [EvFgets (fp_path fp)]).

(** [fstat (fileno (fp), &st)]: the status of the file behind the stream;
    it fails only when there is no such file. *)
Definition fstat (fp : FILE) : M (option stat) :=
  fun w =>
    (match w_files w !! fp_path fp with
     | Some f => Some (Stat (f_mtime f))
     | None => None
     end, w, [EvFstat (fp_path fp)]).

(** [fprintf (fp, "%s", text)]: the text goes to the buffer of the stream
    and the call returns its length, or the call fails, returns a negative
    number and leaves the buffer as it was. *)
Definition fprintf (fp : FILE) (text : list ascii) : M (Z * FILE) :=
  fun w =>
    (if w_print_ok w (fp_path fp)
     then (Z.of_nat (length text),
           Stream (fp_path fp) (fp_mode fp) (fp_buffer fp ++ text))
     else (-1, fp),
     w, [EvFprintf (fp_path fp) text]).

(** What of the buffer of a stream reaches the file when it is closed. *)
Definition flushed (w : world) (fp : FILE) : list ascii :=
  match w_flush w (fp_path fp) with
  | None => fp_buffer fp
  | Some n => take n (fp_buffer fp)
  end.

(** [fclose (fp)]: a stream opened for writing is flushed, and the call
    returns 0 when all of the buffer reached the file and EOF when not; a
    stream opened for reading is just closed. *)
Definition fclose (fp : FILE) : M Z :=
  fun w =>
    match fp_mode fp with
    | ModeR => (0, w, [EvFclose (fp_path fp)])
    | ModeW =>
        (match w_flush w (fp_path fp) with None => 0 | Some _ => -1 end,
         match w_files w !! fp_path fp with
         | Some f =>
             set_files
               (<[fp_path fp := File (f_data f ++ flushed w fp) (w_time w)]>
                  (w_files w)) w
         | None => w
         end, [EvFclose (fp_path fp)])
    end.

(** What a text printed to a fresh stream on [path] leaves in the file
    once the stream is closed: the text, a part of it, or nothing. *)
Definition written (w : world) (path : string) (text : list ascii)
  : list ascii :=
  flushed w (Stream path ModeW (if w_print_ok w path then text else [])).

Definition getaddrinfo (node : string) : M gai_reply :=
  fun w => (w_lookup w node, w, [EvGetaddrinfo node]).

(** The numeric form of [sa] as [getnameinfo] delivers it in a buffer of
    [hostlen] characters: a NUL-terminated string, or nothing when there
    is no numeric form or it does not fit (EAI_OVERFLOW). *)
Definition numeric_host (w : world) (sa : sockaddr) (hostlen : nat)
  : option (list ascii) :=
  match w_numerichost w sa with
  | Some host =>
      if decide (length (cstr host) < hostlen)%nat
      then Some (cstr host) else None
  | None => None
  end.

(** [getnameinfo (sa, salen, host, hostlen, NULL, 0, NI_NUMERICHOST)]. *)
Definition getnameinfo (sa : sockaddr) (hostlen : nat)
  : M (option (list ascii)) :=
  fun w => (numeric_host w sa hostlen, w, [EvGetnameinfo]).

Definition freeaddrinfo : M unit := emit EvFreeaddrinfo.

Arguments numeric_host : simpl never.

(** ** ddns.h *)

(** Modelled from the spec: ddns.h is not part of the sources.  Its
    constants are parameters: the length of an address buffer, the path
    template of a cache file (applied to an alias name) and the code for
    an invalid pointer. *)
Class ddns_h := {
  MAX_ADDRESS_LEN : nat;
  CACHE_FILE : string → string;
  RC_INVALID_POINTER : Z;
}.

(** Modelled from the spec: ddns.h is not part of the sources.  An alias
    record has a name, an address buffer of [MAX_ADDRESS_LEN] characters
    and the time of its last update. *)
Record ddns_alias_t := Alias {
  name : string;
  address : list ascii;
  last_update : Z;
}.

(** Modelled from the spec: ddns.h is not part of the sources.  A
    provider group has the identity of its provider and its aliases
    ([alias_count] is the length of [alias]). *)
Record ddns_system_t := System { system_name : string }.

Record ddns_info_t := Info {
  system : ddns_system_t;
  alias : list ddns_alias_t;
}.

(** Modelled from the spec: ddns.h is not part of the sources.  The
    context holds the provider groups ([info_count] is the length of
    [info]). *)
Record ddns_t := Ctx { info : list ddns_info_t }.

Definition set_address (buf : list ascii) (a : ddns_alias_t) :=
  Alias (name a) buf (last_update a).

Definition set_last_update (t : Z) (a : ddns_alias_t) :=
  Alias (name a) (address a) t.

(** The address of an alias as a string. *)
Definition address_str (a : ddns_alias_t) : list ascii := cstr (address a).

(** The alias [j] of the provider group [i]. *)
Definition alias_at (ctx : ddns_t) (i j : nat) : option ddns_alias_t :=
  match info ctx !! i with
  | Some g => alias g !! j
  | None => None
  end.

Section Cache.

Context `{ddns_h}.

Definition sizeof_address : nat := MAX_ADDRESS_LEN.

Definition cache_path (a : ddns_alias_t) : string :=
  snprintf 256 (CACHE_FILE (name a)).

(** ** cache.c *)

Definition nslookup (alias : ddns_alias_t) : M (Z * ddns_alias_t) :=
  reply <- getaddrinfo (name alias) ;;
  match reply with
  | GaiResult ai_addr _ =>
      (* DNS reply for alias found, convert to IP# *)
      conv <- getnameinfo ai_addr MAX_ADDRESS_LEN ;;
      alias <- match conv with
               | Some address =>
                   (* Update local record for next checkip call. *)
                   let alias :=
                     set_address (strncpy address sizeof_address) alias in
                   logit LOG_INFO (MsgResolved (name alias) address) ;;;
                   ret alias
               | None => ret alias
               end ;;
      freeaddrinfo ;;;
      ret (0, alias)
  | GaiError error =>
      logit LOG_WARNING (MsgResolveFailed (name alias) error) ;;;
      ret (1, alias)
  end.

Definition read_one (alias : ddns_alias_t) (nonslookup : Z)
  : M ddns_alias_t :=
  let alias := set_last_update 0 alias in
  let alias := set_address (memset NUL sizeof_address) alias in
  fp <- fopen (cache_path alias) ModeR ;;
  match fp with
  | None =>
      if decide (nonslookup ≠ 0) then ret alias
      else
        (* Try a DNS lookup of our last known IP#. *)
        r <- nslookup alias ;;
        ret r.2
  | Some fp =>
      line <- fgets MAX_ADDRESS_LEN fp ;;
      alias <- match line with
               | Some address =>
                   logit LOG_INFO (MsgCachedIP address) ;;;
                   ret (set_address (strncpy address sizeof_address) alias)
               | None => ret alias
               end ;;
      (* Initialize time since last update from modification time of
         cache file. *)
      st <- fstat fp ;;
      alias <- match st with
               | Some st =>
                   let alias := set_last_update (st_mtime st) alias in
                   logit LOG_INFO
                     (MsgLastUpdate (name alias) (st_mtime st)) ;;;
                   ret alias
               | None => ret alias
               end ;;
      fclose fp ;;;
      ret alias
  end.

(** Exception for tunnelbroker.net - no name to lookup:
    [!strcmp (info->system->name, "ipv6tb@he.net")]. *)
Definition nonslookup_of (i : ddns_info_t) : Z :=
  if decide (system_name (system i) = "ipv6tb@he.net"%string) then 1 else 0.

Definition read_info (i : ddns_info_t) : M ddns_info_t :=
  let nonslookup := nonslookup_of i in
  aliases <- mapM (fun a => read_one a nonslookup) (alias i) ;;
  ret (Info (system i) aliases).

Definition read_cache_file (ctx : option ddns_t) : M (Z * option ddns_t) :=
  (* Clear DNS cache before querying for the IP below *)
  res_init ;;;
  match ctx with
  | None => ret (RC_INVALID_POINTER, None)
  | Some ctx =>
      infos <- mapM read_info (info ctx) ;;
      ret (0, Some (Ctx infos))
  end.

Definition write_cache_file (alias : ddns_alias_t) : M (Z * ddns_alias_t) :=
  fp <- fopen (cache_path alias) ModeW ;;
  match fp with
  | Some fp =>
      printed <- fprintf fp (address_str alias) ;;
      fclose printed.2 ;;;
      ret (0, alias)
  | None => ret (1, alias)
  end.

(** ** Notions the properties are stated with *)

(** The record as [read_one] resets it before it looks at the cache. *)
Definition reset (a : ddns_alias_t) : ddns_alias_t :=
  Alias (name a) (memset NUL MAX_ADDRESS_LEN) 0.

(** What the pass does while it seeds the alias [a] of the group [g]. *)
Definition alias_events (g : ddns_info_t) (a : ddns_alias_t) (w : world)
  : list event :=
  events (read_one a (nonslookup_of g) w).

(** The outcome of resolving a host name: the numeric form of the first
    result of the lookup, if the lookup and the conversion succeed. *)
Definition resolve (w : world) (node : string) : option (list ascii) :=
  match w_lookup w node with
  | GaiResult ai_addr _ => numeric_host w ai_addr MAX_ADDRESS_LEN
  | GaiError _ => None
  end.

(** The alias [j] of the group [i] after a seeding pass over [ctx]. *)
Definition seeded (ctx : ddns_t) (w : world) (i j : nat)
  : option ddns_alias_t :=
  match (result (read_cache_file (Some ctx) w)).2 with
  | Some ctx' => alias_at ctx' i j
  | None => None
  end.

(** The events [seg] are a stretch of the seeding pass over [ctx]. *)
Definition in_pass (ctx : ddns_t) (w : world) (seg : list event) : Prop :=
  ∃ before after,
    events (read_cache_file (Some ctx) w) = before ++ seg ++ after.

End Cache.

Arguments nslookup : simpl never.
Arguments read_one : simpl never.
Arguments read_info : simpl never.
Arguments read_cache_file : simpl never.
Arguments write_cache_file : simpl never.
Arguments cache_path : simpl never.

(** ** A configuration and a machine for the examples *)

Module Example.

Definition text (s : string) : list ascii := list_ascii_of_string s.

(** Values for the constants of ddns.h. *)
Definition example_h : ddns_h := {|
  MAX_ADDRESS_LEN := 46;
  CACHE_FILE := fun n => ("/var/run/inadyn/" ++ n ++ ".cache")%string;
  RC_INVALID_POINTER := 2;
|}.

(** The old cache file, shared by all aliases. *)
Definition legacy_path : string := "/var/run/inadyn/inadyn.cache".

Definition T0 : Z := 1700000000.

Definition sa_www : sockaddr := Sockaddr 2 [0; 0; 198; 51; 100; 7].
Definition sa_odd : sockaddr := Sockaddr 10 [].

(** Cache files for home.example.com (an address) and for
    empty.example.com (nothing in it), and the old cache file.  The
    resolver knows www.example.com; it also answers for odd.example.com,
    with an address that has no numeric form. *)
Definition example_world : world := {|
  w_files :=
    <[ "/var/run/inadyn/home.example.com.cache"%string :=
         File (text "203.0.113.7") T0 ]>
    (<[ "/var/run/inadyn/empty.example.com.cache"%string :=
         File [] (T0 + 60) ]>
    (<[ legacy_path := File (text "192.0.2.1") (T0 - 3600) ]> ∅));
  w_may_write := fun _ => true;
  w_print_ok := fun _ => true;
  w_flush := fun _ => None;
  w_time := T0 + 86400;
  w_lookup := fun node =>
    if decide (node = "www.example.com"%string) then GaiResult sa_www []
    else if decide (node = "odd.example.com"%string) then GaiResult sa_odd []
    else GaiError EAI_NONAME;
  w_numerichost := fun sa =>
    if decide (sa_family sa = 2) then Some (text "198.51.100.7") else None;
|}.

Definition home : ddns_alias_t := Alias "home.example.com" [] 0.
Definition www : ddns_alias_t := Alias "www.example.com" (text "10.0.0.1") 5.
Definition odd : ddns_alias_t := Alias "odd.example.com" [] 0.
Definition gone : ddns_alias_t := Alias "gone.example.com" (text "10.0.0.2") 7.
Definition empty : ddns_alias_t := Alias "empty.example.com" (text "10.0.0.3") 9.
Definition tunnel : ddns_alias_t := Alias "tunnel.example.com" [] 0.

Definition dyndns : ddns_info_t :=
  Info (System "default@dyndns.org") [home; www; odd; gone; empty].
Definition tunnelbroker : ddns_info_t :=
  Info (System "ipv6tb@he.net") [tunnel].

Definition example_ctx : ddns_t := Ctx [dyndns; tunnelbroker].

(** An alias with an address as the update cycle leaves it. *)
Definition updated : ddns_alias_t :=
  Alias "gone.example.com" (strncpy (text "203.0.113.9") 46) T0.

End Example.

(** ** Further notions: counters and what a pass is expected to touch *)

Definition is_fopen_ok (e : event) : bool :=
  match e with EvFopen _ _ true => true | _ => false end.

Definition is_fclose (e : event) : bool :=
  match e with EvFclose _ => true | _ => false end.

Definition is_freeaddrinfo (e : event) : bool :=
  match e with EvFreeaddrinfo => true | _ => false end.

Section Notions.

Context `{ddns_h}.

(** The cache paths of all aliases, in the order of the two loops of
    [read_cache_file]. *)
Definition cache_paths (ctx : ddns_t) : list string :=
  concat (map (fun g => map cache_path (alias g)) (info ctx)).

(** The alias [a] of the group [g] falls through to the DNS lookup: the
    group is not exempt and there is no cache file to open. *)
Definition needs_lookup (w : world) (g : ddns_info_t) (a : ddns_alias_t)
  : bool :=
  bool_decide (nonslookup_of g = 0) &&
  bool_decide (w_files w !! cache_path a = None).

(** How many aliases of the context fall through to the DNS lookup. *)
Definition lookups_needed (w : world) (ctx : ddns_t) : nat :=
  sum_list
    (map (fun g => length (List.filter (needs_lookup w g) (alias g)))
         (info ctx)).

(** The names of the aliases that fall through to the DNS lookup, in the
    order of the two loops of [read_cache_file]. *)
Definition lookup_names (w : world) (ctx : ddns_t) : list string :=
  concat
    (map (fun g => map name (List.filter (needs_lookup w g) (alias g)))
         (info ctx)).

(** What the pass does for a whole group. *)
Definition group_events (g : ddns_info_t) (w : world) : list event :=
  concat (map (fun a => alias_events g a w) (alias g)).

(** What the pass does, after [res_init], for the aliases that come
    before the alias [j] of the group [i]: the groups before [i] and the
    aliases of [i] before [j]. *)
Definition pass_before (ctx : ddns_t) (w : world) (i j : nat) : list event :=
  concat (map (fun g => group_events g w) (take i (info ctx))) ++
  match info ctx !! i with
  | Some g => concat (map (fun a => alias_events g a w) (take j (alias g)))
  | None => []
  end.

(** What the pass does for the aliases that come after the alias [j] of
    the group [i]. *)
Definition pass_after (ctx : ddns_t) (w : world) (i j : nat) : list event :=
  match info ctx !! i with
  | Some g => concat (map (fun a => alias_events g a w) (drop (S j) (alias g)))
  | None => []
  end ++
  concat (map (fun g => group_events g w) (drop (S i) (info ctx))).

(** The modification time of the cache file of an alias, 0 without one. *)
Definition cached_mtime (w : world) (a : ddns_alias_t) : Z :=
  match w_files w !! cache_path a with
  | Some f => f_mtime f
  | None => 0
  end.

End Notions.

Module Example2.

Import Example.

(** A state directory with cache files somebody edited: one with a line
    of fifty characters, one with an address and a line feed after it. *)
Definition edited_world : world := {|
  w_files :=
    <[ "/var/run/inadyn/long.example.com.cache"%string :=
         File (text "2001:0db8:0000:0000:0000:0000:0000:0001 and more!!")
              T0 ]>
    (<[ "/var/run/inadyn/nl.example.com.cache"%string :=
         File (text "203.0.113.7" ++ [LF] ++ text "198.51.100.7") (T0 + 5) ]>
       ∅);
  w_may_write := fun _ => true;
  w_print_ok := fun _ => true;
  w_flush := fun _ => None;
  w_time := T0 + 86400;
  w_lookup := fun _ => GaiError EAI_AGAIN;
  w_numerichost := fun _ => None;
|}.

Definition long : ddns_alias_t := Alias "long.example.com" [] 0.
Definition nl : ddns_alias_t := Alias "nl.example.com" [] 0.

(** The example context after the update cycle changed the records in
    memory: other addresses and times, the same names. *)
Definition stale_home : ddns_alias_t :=
  Alias "home.example.com" (text "10.9.9.9") 1.
Definition stale_empty : ddns_alias_t :=
  Alias "empty.example.com" (text "10.9.9.5") 5.
Definition stale_tunnel : ddns_alias_t :=
  Alias "tunnel.example.com" (text "10.9.9.4") 6.

Definition stale_dyndns : ddns_info_t :=
  Info (System "default@dyndns.org")
       [stale_home;
        Alias "www.example.com" (text "10.9.9.8") 2;
        Alias "odd.example.com" (text "10.9.9.7") 3;
        Alias "gone.example.com" (text "10.9.9.6") 4;
        stale_empty].
Definition stale_tunnelbroker : ddns_info_t :=
  Info (System "ipv6tb@he.net") [stale_tunnel].

Definition stale_ctx : ddns_t := Ctx [stale_dyndns; stale_tunnelbroker].

(** The example machine with a full disk: files can be created, and
    nothing of what is printed to them is stored. *)
Definition full_disk_world : world := {|
  w_files := w_files example_world;
  w_may_write := fun _ => true;
  w_print_ok := fun _ => true;
  w_flush := fun _ => Some 0%nat;
  w_time := w_time example_world;
  w_lookup := w_lookup example_world;
  w_numerichost := w_numerichost example_world;
|}.

(** The example machine with a disk that takes four more characters. *)
Definition short_disk_world : world := {|
  w_files := w_files example_world;
  w_may_write := fun _ => true;
  w_print_ok := fun _ => true;
  w_flush := fun _ => Some 4%nat;
  w_time := w_time example_world;
  w_lookup := w_lookup example_world;
  w_numerichost := w_numerichost example_world;
|}.

(** The same address for gone.example.com, written later. *)
Definition updated_again : ddns_alias_t :=
  Alias "gone.example.com" (strncpy (text "203.0.113.10") 46) T0.

End Example2.

(** ** Properties *)

(** *** Character arrays *)

Lemma cstr_app_NUL (s rest : list ascii) :
  cstr (cstr s ++ NUL :: rest) = cstr s.
Proof.
  induction s as [|c s IH]; simpl.
  - by destruct (decide (NUL = NUL)).
  - destruct (decide (c = NUL)) as [->|Hc]; simpl.
    + by destruct (decide (NUL = NUL)).
    + destruct (decide (c = NUL)); [done|]. by rewrite IH.
Qed.

Lemma cstr_idemp (s : list ascii) : cstr (cstr s) = cstr s.
Proof.
  induction s as [|c s IH]; simpl; [done|].
  destruct (decide (c = NUL)) as [|Hc]; simpl; [done|].
  destruct (decide (c = NUL)); [done|]. by rewrite IH.
Qed.

Lemma cstr_replicate_NUL (n : nat) : cstr (replicate n NUL) = [].
Proof. destruct n; simpl; [done|]. by destruct (decide (NUL = NUL)). Qed.

Lemma strncpy_nil (n : nat) : strncpy [] n = memset NUL n.
Proof.
  unfold strncpy, memset. simpl. rewrite take_nil. simpl.
  by rewrite Nat.sub_0_r.
Qed.

(** A string that leaves room for its NUL is copied whole. *)
Lemma cstr_strncpy (s : list ascii) (n : nat) :
  (length (cstr s) ≤ n - 1)%nat → cstr (strncpy s n) = cstr s.
Proof.
  intros Hlen. unfold strncpy.
  destruct (decide (n = 0%nat)) as [->|Hn].
  - simpl in Hlen. assert (cstr s = []) as ->.
    { destruct (cstr s); [done|]. simpl in Hlen. lia. }
    done.
  - rewrite take_ge by lia.
    destruct (n - length (cstr s))%nat as [|k] eqn:Hk; [lia|].
    simpl. apply cstr_app_NUL.
Qed.

Lemma read_line_nil (k : nat) : read_line k [] = [].
Proof. by destruct k. Qed.

Lemma length_read_line (k : nat) (input : list ascii) :
  (length (read_line k input) ≤ k)%nat.
Proof.
  revert input. induction k as [|k IH]; intros [|c rest]; simpl; try lia.
  destruct (decide (c = LF)); simpl; [lia|]. specialize (IH rest). lia.
Qed.

Lemma length_cstr (s : list ascii) : (length (cstr s) ≤ length s)%nat.
Proof.
  induction s as [|c s IH]; simpl; [done|].
  destruct (decide (c = NUL)); simpl; lia.
Qed.

(** One read takes the whole of a one-line text that fits. *)
Lemma read_line_one_line (k : nat) (s : list ascii) :
  one_line s = true → (length s ≤ k)%nat → read_line k s = s.
Proof.
  revert k. induction s as [|c s IH]; intros k Hs Hlen.
  - by destruct k.
  - destruct k as [|k]; simpl in Hlen; [lia|]. simpl in *.
    apply andb_true_iff in Hs as [Hc Hs].
    destruct (decide (c = LF)) as [->|Hne].
    + apply orb_true_iff in Hc as [Hc|Hc].
      * by apply bool_decide_eq_true in Hc.
      * apply bool_decide_eq_true in Hc. by subst.
    + f_equal. apply IH; [done|lia].
Qed.

(** *** Computations *)

Lemma count_events_app (p : event → bool) (t1 t2 : list event) :
  count_events p (t1 ++ t2) = (count_events p t1 + count_events p t2)%nat.
Proof. unfold count_events. by rewrite List.filter_app, length_app. Qed.

Lemma result_eq {A} (x : A) (w : world) (t : list event) :
  result (x, w, t) = x.
Proof. done. Qed.

Lemma final_eq {A} (x : A) (w : world) (t : list event) :
  final (x, w, t) = w.
Proof. done. Qed.

Lemma events_eq {A} (x : A) (w : world) (t : list event) :
  events (x, w, t) = t.
Proof. done. Qed.

Lemma opened_paths_fopen path mode opened (t : list event) :
  opened_paths (EvFopen path mode opened :: t) = path :: opened_paths t.
Proof. done. Qed.

Lemma opened_paths_app (t1 t2 : list event) :
  opened_paths (t1 ++ t2) = opened_paths t1 ++ opened_paths t2.
Proof. unfold opened_paths. apply omap_app. Qed.

(** A loop whose body leaves the world alone runs its body on every
    element in the same world. *)
Lemma mapM_same_world {A B} (f : A → M B) (l : list A) (w : world) :
  (∀ x, final (f x w) = w) →
  mapM f l w =
    (map (fun x => result (f x w)) l, w,
     concat (map (fun x => events (f x w)) l)).
Proof.
  intros Hf. induction l as [|x l IH]; [done|].
  simpl. unfold bind. rewrite Hf, IH. simpl.
  by rewrite app_nil_r.
Qed.

(** Running a computation: the calls are unfolded and the projections of
    finished steps evaluated; what remains waits for a fact about the
    world. *)
Ltac run :=
  cbv beta iota zeta delta
    [bind ret emit result final events res_init logit fclose freeaddrinfo
     getaddrinfo getnameinfo fopen fgets fstat fprintf fst snd
     set_address set_last_update];
  cbn.

Section Properties.

Context `{ddns_h}.

(** *** nslookup, case by case *)

Lemma nslookup_error (a : ddns_alias_t) (w : world) (e : eai) :
  w_lookup w (name a) = GaiError e →
  nslookup a w =
    ((1, a), w,
     [EvGetaddrinfo (name a);
      EvLogit LOG_WARNING (MsgResolveFailed (name a) e)]).
Proof. intros Hl. unfold nslookup. run. by rewrite Hl. Qed.

Lemma nslookup_converted (a : ddns_alias_t) (w : world) sa rest host :
  w_lookup w (name a) = GaiResult sa rest →
  numeric_host w sa MAX_ADDRESS_LEN = Some host →
  nslookup a w =
    ((0, set_address (strncpy host MAX_ADDRESS_LEN) a), w,
     [EvGetaddrinfo (name a); EvGetnameinfo;
      EvLogit LOG_INFO (MsgResolved (name a) host); EvFreeaddrinfo]).
Proof.
  intros Hl Hn. unfold nslookup. run. rewrite Hl. run. by rewrite Hn.
Qed.

Lemma nslookup_not_converted (a : ddns_alias_t) (w : world) sa rest :
  w_lookup w (name a) = GaiResult sa rest →
  numeric_host w sa MAX_ADDRESS_LEN = None →
  nslookup a w =
    ((0, a), w, [EvGetaddrinfo (name a); EvGetnameinfo; EvFreeaddrinfo]).
Proof.
  intros Hl Hn. unfold nslookup. run. rewrite Hl. run. by rewrite Hn.
Qed.

Lemma nslookup_final (a : ddns_alias_t) (w : world) :
  final (nslookup a w) = w.
Proof.
  destruct (w_lookup w (name a)) as [e|sa rest] eqn:Hl.
  - by rewrite (nslookup_error _ _ _ Hl).
  - destruct (numeric_host w sa MAX_ADDRESS_LEN) as [host|] eqn:Hn.
    + by rewrite (nslookup_converted _ _ _ _ _ Hl Hn).
    + by rewrite (nslookup_not_converted _ _ _ _ Hl Hn).
Qed.

(** The numeric form that [getnameinfo] delivers is a string that fits
    the buffer. *)
Lemma numeric_host_fits (w : world) sa (n : nat) host :
  numeric_host w sa n = Some host →
  cstr host = host ∧ (length host < n)%nat.
Proof.
  unfold numeric_host. destruct (w_numerichost w sa) as [h|]; [|done].
  destruct (decide _) as [Hlt|]; [|done].
  intros [= <-]. split; [apply cstr_idemp | done].
Qed.

(** *** read_one, case by case *)

Lemma read_one_hit (a : ddns_alias_t) (ns : Z) (w : world) (f : file) :
  w_files w !! cache_path a = Some f →
  result (read_one a ns w) =
    Alias (name a)
          (strncpy (read_line (MAX_ADDRESS_LEN - 1) (f_data f))
                   MAX_ADDRESS_LEN)
          (f_mtime f) ∧
  final (read_one a ns w) = w ∧
  count_events is_resolver_call (events (read_one a ns w)) = 0%nat ∧
  count_events is_res_init (events (read_one a ns w)) = 0%nat ∧
  opened_paths (events (read_one a ns w)) = [cache_path a].
Proof.
  intros Hf.
  unfold read_one, sizeof_address, cache_path in *.
  destruct f as [data mtime].
  destruct MAX_ADDRESS_LEN as [|k] eqn:Hk; [|destruct data as [|c data]];
    repeat (run; rewrite ?Hf);
    rewrite ?read_line_nil, ?strncpy_nil, ?Nat.sub_0_r; done.
Qed.

Lemma read_one_miss_exempt (a : ddns_alias_t) (ns : Z) (w : world) :
  w_files w !! cache_path a = None →
  ns ≠ 0 →
  read_one a ns w = (reset a, w, [EvFopen (cache_path a) ModeR false]).
Proof.
  intros Hr Hns. unfold read_one, sizeof_address, cache_path in *. run.
  rewrite Hr. run. by destruct (decide (ns ≠ 0)).
Qed.

Lemma read_one_miss_lookup (a : ddns_alias_t) (w : world) :
  w_files w !! cache_path a = None →
  read_one a 0 w =
    ((result (nslookup (reset a) w)).2, w,
     EvFopen (cache_path a) ModeR false :: events (nslookup (reset a) w)).
Proof.
  intros Hr. unfold read_one, sizeof_address, cache_path in *. run.
  rewrite Hr. run. destruct (decide (0 ≠ 0)); [done|].
  rewrite app_nil_r. do 2 f_equal. exact (nslookup_final (reset a) w).
Qed.

Lemma read_one_final (a : ddns_alias_t) (ns : Z) (w : world) :
  final (read_one a ns w) = w.
Proof.
  destruct (w_files w !! cache_path a) as [f|] eqn:Hr.
  - by apply (read_one_hit a ns w f).
  - destruct (decide (ns = 0)) as [->|Hns].
    + by rewrite read_one_miss_lookup.
    + by rewrite read_one_miss_exempt.
Qed.

Lemma nslookup_events (a : ddns_alias_t) (w : world) :
  count_events is_res_init (events (nslookup a w)) = 0%nat ∧
  count_events is_lookup (events (nslookup a w)) = 1%nat ∧
  opened_paths (events (nslookup a w)) = [].
Proof.
  destruct (w_lookup w (name a)) as [e|sa rest] eqn:Hl.
  - by rewrite (nslookup_error _ _ _ Hl).
  - destruct (numeric_host w sa MAX_ADDRESS_LEN) as [host|] eqn:Hn.
    + by rewrite (nslookup_converted _ _ _ _ _ Hl Hn).
    + by rewrite (nslookup_not_converted _ _ _ _ Hl Hn).
Qed.

Lemma read_one_events (a : ddns_alias_t) (ns : Z) (w : world) :
  count_events is_res_init (events (read_one a ns w)) = 0%nat ∧
  opened_paths (events (read_one a ns w)) = [cache_path a].
Proof.
  destruct (w_files w !! cache_path a) as [f|] eqn:Hr.
  - by destruct (read_one_hit a ns w f Hr) as (_ & _ & _ & ? & ?).
  - destruct (decide (ns = 0)) as [->|Hns].
    + rewrite read_one_miss_lookup by done.
      destruct (nslookup_events (reset a) w) as (Hi & _ & Ho).
      unfold events in *. cbn. split.
      * exact Hi.
      * by rewrite opened_paths_fopen, Ho.
    + by rewrite read_one_miss_exempt.
Qed.

(** *** The seeding pass as a whole *)

Lemma read_info_eq (g : ddns_info_t) (w : world) :
  read_info g w =
    (Info (system g)
          (map (fun a => result (read_one a (nonslookup_of g) w)) (alias g)),
     w, concat (map (fun a => alias_events g a w) (alias g))).
Proof.
  unfold read_info, bind.
  rewrite mapM_same_world by (intros; apply read_one_final).
  simpl. by rewrite app_nil_r.
Qed.

Lemma read_cache_file_ctx (ctx : ddns_t) (w : world) :
  read_cache_file (Some ctx) w =
    ((0, Some (Ctx (map (fun g => result (read_info g w)) (info ctx)))), w,
     EvResInit :: concat (map (fun g => events (read_info g w)) (info ctx))).
Proof.
  unfold read_cache_file, bind, res_init, emit. simpl.
  rewrite mapM_same_world by (intros g; by rewrite read_info_eq).
  simpl. by rewrite app_nil_r.
Qed.

Lemma read_cache_file_null (w : world) :
  read_cache_file None w = ((RC_INVALID_POINTER, None), w, [EvResInit]).
Proof. done. Qed.

Lemma concat_map_lookup {A B} (f : A → list B) (l : list A) (i : nat) x :
  l !! i = Some x →
  concat (map f l) =
    concat (map f (take i l)) ++ f x ++ concat (map f (drop (S i) l)).
Proof.
  intros Hi. rewrite <- (take_drop_middle l i x Hi) at 1.
  by rewrite map_app, concat_app.
Qed.

(** Every alias is seeded by [read_one] in the world the pass started
    in, whatever happens to the others, and what [read_one] does for it
    is a stretch of the pass. *)
Lemma seeded_alias (ctx : ddns_t) (w : world) (i j : nat) g a :
  info ctx !! i = Some g →
  alias g !! j = Some a →
  seeded ctx w i j = Some (result (read_one a (nonslookup_of g) w)) ∧
  in_pass ctx w (alias_events g a w).
Proof.
  intros Hi Hj. split.
  - unfold seeded. rewrite read_cache_file_ctx, result_eq.
    unfold alias_at. cbn [snd info].
    rewrite list_lookup_fmap, Hi. cbn [fmap option_fmap option_map].
    rewrite read_info_eq, result_eq. cbn [alias].
    by rewrite list_lookup_fmap, Hj.
  - unfold in_pass. rewrite read_cache_file_ctx, events_eq.
    rewrite (concat_map_lookup _ _ _ _ Hi).
    rewrite (read_info_eq g), events_eq.
    rewrite (concat_map_lookup _ _ _ _ Hj).
    match goal with
    | |- ∃ _ _, ?e :: ?x ++ (?y ++ _ ++ ?z) ++ ?u = _ =>
        exists (e :: x ++ y), (z ++ u)
    end.
    rewrite <- app_comm_cons. by rewrite <- !app_assoc.
Qed.

Lemma count_events_concat_0 {A} (p : event → bool) (f : A → list event)
    (l : list A) :
  (∀ x, count_events p (f x) = 0%nat) →
  count_events p (concat (map f l)) = 0%nat.
Proof.
  intros Hf. induction l as [|x l IH]; [done|].
  simpl. by rewrite count_events_app, Hf, IH.
Qed.

Lemma read_info_events (g : ddns_info_t) (w : world) :
  count_events is_res_init (events (read_info g w)) = 0%nat.
Proof.
  rewrite read_info_eq, events_eq. apply count_events_concat_0.
  intros a. apply read_one_events.
Qed.

Lemma read_cache_file_final (ctx : option ddns_t) (w : world) :
  final (read_cache_file ctx w) = w.
Proof.
  destruct ctx as [ctx|]; [|done]. by rewrite read_cache_file_ctx.
Qed.

Lemma elem_of_concat_map {A B} (f : A → list B) (l : list A) (y : B) :
  y ∈ concat (map f l) → ∃ i x, l !! i = Some x ∧ y ∈ f x.
Proof.
  induction l as [|x l IH]; simpl; [by intros ?%elem_of_nil|].
  intros [Hy|Hy]%elem_of_app.
  - by exists 0%nat, x.
  - destruct (IH Hy) as (i & x' & Hi & Hx'). by exists (S i), x'.
Qed.

Lemma opened_paths_concat_map {A} (f : A → list event) (l : list A) :
  opened_paths (concat (map f l)) =
    concat (map (fun x => opened_paths (f x)) l).
Proof.
  induction l as [|x l IH]; [done|].
  simpl. by rewrite opened_paths_app, IH.
Qed.

(** The pass opens the cache files of the aliases and nothing else. *)
Lemma read_cache_file_opens (ctx : ddns_t) (w : world) (path : string) :
  path ∈ opened_paths (events (read_cache_file (Some ctx) w)) →
  ∃ i j a, alias_at ctx i j = Some a ∧ path = cache_path a.
Proof.
  rewrite read_cache_file_ctx, events_eq.
  change (EvResInit :: ?t) with ([EvResInit] ++ t).
  rewrite opened_paths_app. change (opened_paths [EvResInit]) with (@nil string).
  rewrite app_nil_l, opened_paths_concat_map.
  intros (i & g & Hi & Hp)%elem_of_concat_map.
  rewrite read_info_eq, events_eq, opened_paths_concat_map in Hp.
  apply elem_of_concat_map in Hp as (j & a & Hj & Hp).
  unfold alias_events in Hp.
  destruct (read_one_events a (nonslookup_of g) w) as [_ Ho].
  rewrite Ho in Hp. apply list_elem_of_singleton in Hp.
  exists i, j, a. unfold alias_at. by rewrite Hi.
Qed.

(** *** write_cache_file, case by case *)

Lemma write_cache_file_ok (a : ddns_alias_t) (w : world) :
  w_may_write w (cache_path a) = true →
  write_cache_file a w =
    ((0, a),
     set_files
       (<[cache_path a :=
            File (written w (cache_path a) (address_str a)) (w_time w)]>
          (<[cache_path a := File [] (w_time w)]> (w_files w))) w,
     [EvFopen (cache_path a) ModeW true;
      EvFprintf (cache_path a) (address_str a);
      EvFclose (cache_path a)]).
Proof.
  intros Hw. unfold write_cache_file, written, flushed. run. rewrite Hw. run.
  destruct (w_print_ok w (cache_path a)); run;
    by rewrite lookup_insert_eq.
Qed.

Lemma write_cache_file_fails (a : ddns_alias_t) (w : world) :
  w_may_write w (cache_path a) = false →
  write_cache_file a w =
    ((1, a), w, [EvFopen (cache_path a) ModeW false]).
Proof. intros Hw. unfold write_cache_file. run. by rewrite Hw. Qed.

Lemma nonslookup_of_other (g : ddns_info_t) :
  system_name (system g) ≠ "ipv6tb@he.net"%string → nonslookup_of g = 0.
Proof. intros Hg. unfold nonslookup_of. by destruct (decide _). Qed.

Lemma nonslookup_of_tunnelbroker (g : ddns_info_t) :
  system_name (system g) = "ipv6tb@he.net"%string → nonslookup_of g ≠ 0.
Proof. intros Hg. unfold nonslookup_of. by destruct (decide _). Qed.

(** *** The lookups of a pass, alias by alias *)

Lemma lookup_nodes_app (t1 t2 : list event) :
  lookup_nodes (t1 ++ t2) = lookup_nodes t1 ++ lookup_nodes t2.
Proof. unfold lookup_nodes. apply omap_app. Qed.

Lemma lookup_nodes_concat_map {A} (f : A → list event) (l : list A) :
  lookup_nodes (concat (map f l)) =
    concat (map (fun x => lookup_nodes (f x)) l).
Proof.
  induction l as [|x l IH]; [done|].
  simpl. by rewrite lookup_nodes_app, IH.
Qed.

Lemma nslookup_lookup_nodes (a : ddns_alias_t) (w : world) :
  lookup_nodes (events (nslookup a w)) = [name a].
Proof.
  destruct (w_lookup w (name a)) as [e|sa rest] eqn:Hl.
  - by rewrite (nslookup_error _ _ _ Hl).
  - destruct (numeric_host w sa MAX_ADDRESS_LEN) as [host|] eqn:Hn.
    + by rewrite (nslookup_converted _ _ _ _ _ Hl Hn).
    + by rewrite (nslookup_not_converted _ _ _ _ Hl Hn).
Qed.

Lemma read_one_hit_lookup_nodes (a : ddns_alias_t) (ns : Z) (w : world) f :
  w_files w !! cache_path a = Some f →
  lookup_nodes (events (read_one a ns w)) = [].
Proof.
  intros Hf.
  unfold read_one, sizeof_address, cache_path in *.
  destruct f as [data mtime].
  destruct MAX_ADDRESS_LEN as [|k] eqn:Hk; [|destruct data as [|c data]];
    repeat (run; rewrite ?Hf); done.
Qed.

Lemma alias_events_lookup_nodes (g : ddns_info_t) (a : ddns_alias_t)
    (w : world) :
  lookup_nodes (alias_events g a w) =
    if needs_lookup w g a then [name a] else [].
Proof.
  unfold alias_events, needs_lookup.
  destruct (w_files w !! cache_path a) as [f|] eqn:Hf.
  - rewrite (read_one_hit_lookup_nodes a _ w f Hf).
    by rewrite andb_false_r.
  - rewrite (bool_decide_eq_true_2 (None = None)), andb_true_r by done.
    destruct (decide (nonslookup_of g = 0)) as [Hns|Hns].
    + rewrite Hns, (read_one_miss_lookup a w Hf), events_eq.
      change (EvFopen ?p ?m ?b :: ?t) with ([EvFopen p m b] ++ t).
      rewrite lookup_nodes_app, nslookup_lookup_nodes. done.
    + rewrite (read_one_miss_exempt a _ w Hf Hns), events_eq.
      by rewrite bool_decide_eq_false_2.
Qed.

(** The host names a pass hands to [getaddrinfo] are the names of the
    aliases that have no cache file and are not exempt, one call each, in
    the order of the loops. *)
Lemma pass_lookup_nodes (ctx : ddns_t) (w : world) :
  lookup_nodes (events (read_cache_file (Some ctx) w)) = lookup_names w ctx.
Proof.
  rewrite read_cache_file_ctx, events_eq.
  change (EvResInit :: ?t) with ([EvResInit] ++ t).
  rewrite lookup_nodes_app. change (lookup_nodes [EvResInit]) with (@nil string).
  rewrite app_nil_l, lookup_nodes_concat_map. unfold lookup_names.
  f_equal. apply map_ext. intros g.
  rewrite read_info_eq, events_eq, lookup_nodes_concat_map.
  induction (alias g) as [|a l IH]; [done|].
  simpl. rewrite IH, alias_events_lookup_nodes.
  by destruct (needs_lookup w g a).
Qed.

Lemma elem_of_lookup_names (ctx : ddns_t) (w : world) (n : string) :
  n ∈ lookup_names w ctx →
  ∃ i j g b,
    info ctx !! i = Some g ∧ alias g !! j = Some b ∧
    needs_lookup w g b = true ∧ name b = n.
Proof.
  unfold lookup_names. intros (i & g & Hi & Hn)%elem_of_concat_map.
  assert (∀ l, n ∈ map name (List.filter (needs_lookup w g) l) →
               ∃ j b, l !! j = Some b ∧ needs_lookup w g b = true
                      ∧ name b = n) as Hgen.
  { induction l as [|b l IH]; [by intros ?%elem_of_nil|].
    simpl. destruct (needs_lookup w g b) eqn:Hb.
    - simpl. intros [->|Hl]%elem_of_cons.
      + by exists 0%nat, b.
      + destruct (IH Hl) as (j & b' & ? & ? & ?). by exists (S j), b'.
    - intros Hl. destruct (IH Hl) as (j & b' & ? & ? & ?).
      by exists (S j), b'. }
  destruct (Hgen _ Hn) as (j & b & Hj & Hb & Hname).
  by exists i, j, g, b.
Qed.

(** The events of a pass, split at an alias: [res_init], what is done for
    the aliases before it, what is done for it, what is done for the
    aliases after it. *)
Lemma pass_events_split (ctx : ddns_t) (w : world) (i j : nat) g a :
  info ctx !! i = Some g →
  alias g !! j = Some a →
  events (read_cache_file (Some ctx) w) =
    EvResInit :: pass_before ctx w i j ++ alias_events g a w
              ++ pass_after ctx w i j.
Proof.
  intros Hi Hj. rewrite read_cache_file_ctx, events_eq.
  unfold pass_before, pass_after. rewrite Hi. f_equal.
  rewrite (concat_map_lookup _ _ _ _ Hi), (read_info_eq g), events_eq.
  rewrite (concat_map_lookup _ _ _ _ Hj).
  assert (∀ l, concat (map (fun g0 => events (read_info g0 w)) l)
               = concat (map (fun g0 => group_events g0 w) l)) as Hl.
  { intros l. f_equal. apply map_ext. intros g0.
    by rewrite read_info_eq, events_eq. }
  rewrite !Hl. by rewrite <- !app_assoc.
Qed.

Lemma written_whole (w : world) (path : string) (text : list ascii) :
  w_print_ok w path = true → w_flush w path = None →
  written w path text = text.
Proof. intros Hp Hf. unfold written, flushed. simpl. by rewrite Hp, Hf. Qed.

Lemma written_prefix (w : world) (path : string) (text : list ascii) :
  ∃ n, written w path text = take n text.
Proof.
  unfold written, flushed. simpl.
  destruct (w_print_ok w path), (w_flush w path) as [n|].
  - by exists n.
  - exists (length text). by rewrite firstn_all.
  - exists 0%nat. by rewrite take_nil.
  - by exists 0%nat.
Qed.

Lemma cstr_fgets_line (data : list ascii) :
  cstr (strncpy (read_line (MAX_ADDRESS_LEN - 1) data) MAX_ADDRESS_LEN) =
  cstr (read_line (MAX_ADDRESS_LEN - 1) data).
Proof.
  apply cstr_strncpy.
  etrans; [apply length_cstr | apply length_read_line].
Qed.

End Properties.

(** ** Main results *)

Section Claims.

Context `{ddns_h}.

(** C1.  For every alias whose cache file can be opened for reading, the
    seeding pass sets the address of the alias from the content of the
    file (the line [fgets] takes from it, as a string) and its
    last_update from the modification time of the file, and the resolver
    is never invoked for it in the pass.  The pass is [res_init], what
    [read_one] does for the aliases before this one, what it does for
    this one, which has no resolver call in it, and what it does for the
    aliases after it, and nothing more; the names the pass hands to
    [getaddrinfo] are those of the aliases that need a lookup, of which
    this alias is none; and the name of this alias is not among them. *)
Theorem seeding_cache_hit (ctx : ddns_t) (w : world) (i j : nat) g a f :
  info ctx !! i = Some g →
  alias g !! j = Some a →
  w_files w !! cache_path a = Some f →
  ∃ a',
    seeded ctx w i j = Some a' ∧
    name a' = name a ∧
    address_str a' = cstr (read_line (MAX_ADDRESS_LEN - 1) (f_data f)) ∧
    last_update a' = f_mtime f ∧
    in_pass ctx w (alias_events g a w) ∧
    count_events is_resolver_call (alias_events g a w) = 0%nat ∧
    events (read_cache_file (Some ctx) w) =
      EvResInit :: pass_before ctx w i j ++ alias_events g a w
                ++ pass_after ctx w i j ∧
    lookup_nodes (events (read_cache_file (Some ctx) w))
      = lookup_names w ctx ∧
    needs_lookup w g a = false ∧
    name a ∉ lookup_nodes (events (read_cache_file (Some ctx) w)).
Proof.
  intros Hi Hj Hf.
  destruct (seeded_alias ctx w i j g a Hi Hj) as [Hs Hp].
  destruct (read_one_hit a (nonslookup_of g) w f Hf) as (Hr & _ & Hc & _).
  eexists. split; [exact Hs|]. rewrite Hr.
  split_and!; try done.
  - unfold address_str. simpl. apply cstr_fgets_line.
  - by apply pass_events_split.
  - apply pass_lookup_nodes.
  - unfold needs_lookup. rewrite Hf. by rewrite andb_false_r.
  - rewrite pass_lookup_nodes.
    intros (i' & j' & g' & b & _ & _ & Hb & Hn)%elem_of_lookup_names.
    unfold needs_lookup in Hb. apply andb_true_iff in Hb as [_ Hb].
    apply bool_decide_eq_true in Hb.
    assert (cache_path b = cache_path a) as Hpath
      by (unfold cache_path; by rewrite Hn).
    rewrite Hpath, Hf in Hb. done.
Qed.

(** C3, as amended.  [nslookup] returns 1 exactly when the lookup fails
    and 0 exactly when the lookup has a result.  With a result whose
    conversion succeeds the address is set to the numeric form; when the
    conversion fails the return value is still 0 and the alias is left
    as it was.  The call always returns, leaves the world alone and
    makes exactly one lookup. *)
Theorem nslookup_returns (a : ddns_alias_t) (w : world) :
  ((result (nslookup a w)).1 = 1 ↔ ∃ e, w_lookup w (name a) = GaiError e) ∧
  ((result (nslookup a w)).1 = 0 ↔
     ∃ sa rest, w_lookup w (name a) = GaiResult sa rest) ∧
  (∀ host, resolve w (name a) = Some host →
     (result (nslookup a w)).1 = 0 ∧
     address_str (result (nslookup a w)).2 = host ∧
     last_update (result (nslookup a w)).2 = last_update a) ∧
  (resolve w (name a) = None → (result (nslookup a w)).2 = a) ∧
  final (nslookup a w) = w ∧
  count_events is_lookup (events (nslookup a w)) = 1%nat.
Proof.
  split_and!; try apply nslookup_final; try apply nslookup_events.
  - destruct (w_lookup w (name a)) as [e|sa rest] eqn:Hl.
    + rewrite (nslookup_error _ _ _ Hl). split; [by eexists | done].
    + split; [|by intros [? ?]].
      destruct (numeric_host w sa MAX_ADDRESS_LEN) as [host|] eqn:Hn.
      * by rewrite (nslookup_converted _ _ _ _ _ Hl Hn).
      * by rewrite (nslookup_not_converted _ _ _ _ Hl Hn).
  - destruct (w_lookup w (name a)) as [e|sa rest] eqn:Hl.
    + rewrite (nslookup_error _ _ _ Hl). split; [done | by intros (? & ? & ?)].
    + split; [by eexists _, _|]. intros _.
      destruct (numeric_host w sa MAX_ADDRESS_LEN) as [host|] eqn:Hn.
      * by rewrite (nslookup_converted _ _ _ _ _ Hl Hn).
      * by rewrite (nslookup_not_converted _ _ _ _ Hl Hn).
  - intros host. unfold resolve.
    destruct (w_lookup w (name a)) as [e|sa rest] eqn:Hl; [done|].
    intros Hn. rewrite (nslookup_converted _ _ _ _ _ Hl Hn).
    destruct (numeric_host_fits _ _ _ _ Hn) as [Hc Hlen].
    split_and!; try done.
    unfold address_str. simpl. rewrite cstr_strncpy; [done|].
    rewrite Hc. lia.
  - unfold resolve.
    destruct (w_lookup w (name a)) as [e|sa rest] eqn:Hl.
    + by rewrite (nslookup_error _ _ _ Hl).
    + intros Hn. by rewrite (nslookup_not_converted _ _ _ _ Hl Hn).
Qed.

(** C4.  For every alias of a provider group marked no-hostname (the
    provider is "ipv6tb@he.net") whose cache file cannot be opened, the
    seeding pass leaves the address empty and last_update zero, and the
    resolver is never invoked for it in the pass.  The pass is
    [res_init], what [read_one] does for the aliases before this one,
    what it does for this one, which is the failed [fopen] and nothing
    else, and what it does for the aliases after it, and nothing more;
    the names the pass hands to [getaddrinfo] are those of the aliases
    that need a lookup, of which this alias is none; if its name is
    looked up in the pass at all, that is for an alias of that name in a
    group that is not exempt. *)
Theorem seeding_no_hostname (ctx : ddns_t) (w : world) (i j : nat) g a :
  info ctx !! i = Some g →
  alias g !! j = Some a →
  system_name (system g) = "ipv6tb@he.net"%string →
  w_files w !! cache_path a = None →
  ∃ a',
    seeded ctx w i j = Some a' ∧
    name a' = name a ∧
    address_str a' = [] ∧
    last_update a' = 0 ∧
    in_pass ctx w (alias_events g a w) ∧
    count_events is_resolver_call (alias_events g a w) = 0%nat ∧
    alias_events g a w = [EvFopen (cache_path a) ModeR false] ∧
    events (read_cache_file (Some ctx) w) =
      EvResInit :: pass_before ctx w i j ++ alias_events g a w
                ++ pass_after ctx w i j ∧
    lookup_nodes (events (read_cache_file (Some ctx) w))
      = lookup_names w ctx ∧
    needs_lookup w g a = false ∧
    (name a ∈ lookup_nodes (events (read_cache_file (Some ctx) w)) →
     ∃ i' j' g' b,
       info ctx !! i' = Some g' ∧ alias g' !! j' = Some b ∧
       name b = name a ∧
       system_name (system g') ≠ "ipv6tb@he.net"%string).
Proof.
  intros Hi Hj Hg Hf.
  destruct (seeded_alias ctx w i j g a Hi Hj) as [Hs Hp].
  pose proof (read_one_miss_exempt a (nonslookup_of g) w Hf
                (nonslookup_of_tunnelbroker g Hg)) as Hr.
  eexists. split; [exact Hs|].
  assert (alias_events g a w = [EvFopen (cache_path a) ModeR false]) as Hev
    by (unfold alias_events; by rewrite Hr, events_eq).
  rewrite Hr, result_eq.
  split_and!; try done.
  - apply cstr_replicate_NUL.
  - by rewrite Hev.
  - by apply pass_events_split.
  - apply pass_lookup_nodes.
  - unfold needs_lookup.
    by rewrite (bool_decide_eq_false_2 _ (nonslookup_of_tunnelbroker g Hg)).
  - rewrite pass_lookup_nodes.
    intros (i' & j' & g' & b & Hi' & Hj' & Hb & Hn)%elem_of_lookup_names.
    exists i', j', g', b. split_and!; try done.
    unfold needs_lookup in Hb. apply andb_true_iff in Hb as [Hb _].
    apply bool_decide_eq_true in Hb. intros Hg'.
    by apply (nonslookup_of_tunnelbroker g' Hg').
Qed.

(** C5.  For every alias of a group that is not marked no-hostname and
    whose cache file cannot be opened: last_update stays zero; when the
    name resolves, the address is the resolved numeric address; when
    the resolution fails, the address stays empty, and the pass goes on:
    every alias of the context is seeded by [read_one] all the same. *)
Theorem seeding_fallback (ctx : ddns_t) (w : world) (i j : nat) g a :
  info ctx !! i = Some g →
  alias g !! j = Some a →
  system_name (system g) ≠ "ipv6tb@he.net"%string →
  w_files w !! cache_path a = None →
  ∃ a',
    seeded ctx w i j = Some a' ∧
    name a' = name a ∧
    last_update a' = 0 ∧
    (∀ host, resolve w (name a) = Some host → address_str a' = host) ∧
    (resolve w (name a) = None →
       address a' = memset NUL MAX_ADDRESS_LEN ∧
       address_str a' = [] ∧
       ∀ i' j' g' b,
         info ctx !! i' = Some g' →
         alias g' !! j' = Some b →
         seeded ctx w i' j' =
           Some (result (read_one b (nonslookup_of g') w))).
Proof.
  intros Hi Hj Hg Hf.
  destruct (seeded_alias ctx w i j g a Hi Hj) as [Hs _].
  rewrite (nonslookup_of_other g Hg) in Hs.
  rewrite (read_one_miss_lookup a w Hf), result_eq in Hs.
  eexists. split; [exact Hs|].
  unfold resolve. change (name a) with (name (reset a)).
  destruct (w_lookup w (name (reset a))) as [e|sa rest] eqn:Hl.
  - rewrite (nslookup_error _ _ _ Hl), result_eq. simpl.
    split_and!; try done.
    intros _. split_and!; try done.
    + apply cstr_replicate_NUL.
    + intros i' j' g' b Hi' Hj'. by apply seeded_alias.
  - destruct (numeric_host w sa MAX_ADDRESS_LEN) as [host|] eqn:Hn.
    + rewrite (nslookup_converted _ _ _ _ _ Hl Hn), result_eq. simpl.
      split_and!; try done.
      intros ? [= <-].
      destruct (numeric_host_fits _ _ _ _ Hn) as [Hc Hlen].
      unfold address_str. simpl. rewrite cstr_strncpy; [done|].
      rewrite Hc. lia.
    + rewrite (nslookup_not_converted _ _ _ _ Hl Hn), result_eq. simpl.
      split_and!; try done.
      intros _. split_and!; try done.
      * apply cstr_replicate_NUL.
      * intros i' j' g' b Hi' Hj'. by apply seeded_alias.
Qed.

(** C6.  With an invalid-pointer code that differs from 0,
    [read_cache_file] returns that code if and only if the context is
    null, and then no alias is processed (the pass does nothing but the
    resolver reset and hands back no context); with a context it returns
    0 and the seeded context, whatever happened to the aliases. *)
Theorem read_cache_file_returns (ctx : option ddns_t) (w : world) :
  RC_INVALID_POINTER ≠ 0 →
  ((result (read_cache_file ctx w)).1 = RC_INVALID_POINTER ↔ ctx = None) ∧
  (ctx = None →
     (result (read_cache_file ctx w)).2 = None ∧
     events (read_cache_file ctx w) = [EvResInit]) ∧
  (ctx ≠ None →
     (result (read_cache_file ctx w)).1 = 0 ∧
     is_Some (result (read_cache_file ctx w)).2).
Proof.
  intros Hrc. destruct ctx as [ctx|].
  - rewrite read_cache_file_ctx, result_eq. simpl. split_and!; [|done..].
    split; [|done]. intros Heq. by destruct Hrc.
  - by rewrite read_cache_file_null.
Qed.

(** C7.  In every seeding pass the resolver reset ([res_init]) is the
    first thing done, before any provider group or alias is processed,
    and it is not done again: the pass has exactly one such event. *)
Theorem res_init_once (ctx : option ddns_t) (w : world) :
  ∃ rest,
    events (read_cache_file ctx w) = EvResInit :: rest ∧
    count_events is_res_init rest = 0%nat ∧
    count_events is_res_init (events (read_cache_file ctx w)) = 1%nat.
Proof.
  destruct ctx as [ctx|].
  - rewrite read_cache_file_ctx, events_eq. eexists. split; [done|].
    assert (count_events is_res_init
              (concat (map (fun g => events (read_info g w)) (info ctx)))
            = 0%nat) as Hrest
      by (apply count_events_concat_0; intros g; apply read_info_events).
    split; [exact Hrest|].
    change (EvResInit :: ?t) with ([EvResInit] ++ t).
    by rewrite count_events_app, Hrest.
  - rewrite read_cache_file_null, events_eq. by exists [].
Qed.

(** C8, as amended.  For every alias and every address, a string of one
    line (no line feed before its last character) that fits the address
    buffer: when [write_cache_file] returns 0 and its output reaches the
    file, that is [fprintf] takes the text and [fclose] stores all of it
    (the code looks at neither result), the cache file holds the address
    and carries the time of the write, and a later [read_one] of an alias
    of that name yields that address and that time as last_update. *)
Theorem write_then_read (a b : ddns_alias_t) (ns : Z) (w : world) (t' : Z) :
  (result (write_cache_file a w)).1 = 0 →
  w_print_ok w (cache_path a) = true →
  w_flush w (cache_path a) = None →
  (length (address_str a) < MAX_ADDRESS_LEN)%nat →
  one_line (address_str a) = true →
  name b = name a →
  ∃ f,
    w_files (final (write_cache_file a w)) !! cache_path a = Some f ∧
    f_data f = address_str a ∧
    f_mtime f = w_time w ∧
    address_str
      (result (read_one b ns (set_time t' (final (write_cache_file a w)))))
      = address_str a ∧
    last_update
      (result (read_one b ns (set_time t' (final (write_cache_file a w)))))
      = f_mtime f.
Proof.
  intros Hrc Hprint Hflush Hlen Hline Hname.
  destruct (w_may_write w (cache_path a)) eqn:Hw;
    [|by rewrite (write_cache_file_fails a w Hw) in Hrc].
  rewrite (write_cache_file_ok a w Hw), final_eq.
  rewrite (written_whole w _ _ Hprint Hflush).
  exists (File (address_str a) (w_time w)).
  assert (cache_path b = cache_path a) as Hpath
    by (unfold cache_path; by rewrite Hname).
  split_and!; try done.
  - simpl. apply lookup_insert_eq.
  - match goal with
    | |- address_str (result (read_one b ns ?w')) = _ =>
        destruct (read_one_hit b ns w' (File (address_str a) (w_time w)))
          as (Hr & _)
    end.
    { rewrite Hpath. simpl. apply lookup_insert_eq. }
    rewrite Hr. unfold address_str at 1. simpl.
    rewrite cstr_fgets_line, read_line_one_line by (done || lia).
    apply cstr_idemp.
  - match goal with
    | |- last_update (result (read_one b ns ?w')) = _ =>
        destruct (read_one_hit b ns w' (File (address_str a) (w_time w)))
          as (Hr & _)
    end.
    { rewrite Hpath. simpl. apply lookup_insert_eq. }
    by rewrite Hr.
Qed.

(** C9.  For every alias whose cache file opens and is empty, the
    seeding pass counts a hit: the address stays the empty string,
    last_update is the modification time of the file, and the resolver
    is never invoked for it in the pass.  The pass is [res_init], what
    [read_one] does for the aliases before this one, what it does for
    this one, which has no resolver call in it, and what it does for the
    aliases after it, and nothing more; the names the pass hands to
    [getaddrinfo] are those of the aliases that need a lookup, of which
    this alias is none; and the name of this alias is not among them. *)
Theorem seeding_empty_cache_file (ctx : ddns_t) (w : world) (i j : nat)
    g a f :
  info ctx !! i = Some g →
  alias g !! j = Some a →
  w_files w !! cache_path a = Some f →
  f_data f = [] →
  ∃ a',
    seeded ctx w i j = Some a' ∧
    address a' = memset NUL MAX_ADDRESS_LEN ∧
    address_str a' = [] ∧
    last_update a' = f_mtime f ∧
    in_pass ctx w (alias_events g a w) ∧
    count_events is_resolver_call (alias_events g a w) = 0%nat ∧
    events (read_cache_file (Some ctx) w) =
      EvResInit :: pass_before ctx w i j ++ alias_events g a w
                ++ pass_after ctx w i j ∧
    lookup_nodes (events (read_cache_file (Some ctx) w))
      = lookup_names w ctx ∧
    needs_lookup w g a = false ∧
    name a ∉ lookup_nodes (events (read_cache_file (Some ctx) w)).
Proof.
  intros Hi Hj Hf Hdata.
  destruct (seeded_alias ctx w i j g a Hi Hj) as [Hs Hp].
  destruct (read_one_hit a (nonslookup_of g) w f Hf) as (Hr & _ & Hc & _).
  eexists. split; [exact Hs|]. rewrite Hr, Hdata, read_line_nil, strncpy_nil.
  split_and!; try done.
  - apply cstr_replicate_NUL.
  - by apply pass_events_split.
  - apply pass_lookup_nodes.
  - unfold needs_lookup. rewrite Hf. by rewrite andb_false_r.
  - rewrite pass_lookup_nodes.
    intros (i' & j' & g' & b & _ & _ & Hb & Hn)%elem_of_lookup_names.
    unfold needs_lookup in Hb. apply andb_true_iff in Hb as [_ Hb].
    apply bool_decide_eq_true in Hb.
    assert (cache_path b = cache_path a) as Hpath
      by (unfold cache_path; by rewrite Hn).
    rewrite Hpath, Hf in Hb. done.
Qed.

(** C10.  [write_cache_file] hands the alias record back as it got it:
    name, address and last_update are what they were, whether the write
    succeeds or fails. *)
Theorem write_cache_file_frame (a : ddns_alias_t) (w : world) :
  (result (write_cache_file a w)).2 = a ∧
  name (result (write_cache_file a w)).2 = name a ∧
  address (result (write_cache_file a w)).2 = address a ∧
  last_update (result (write_cache_file a w)).2 = last_update a ∧
  ((result (write_cache_file a w)).1 = 0 ∨
   (result (write_cache_file a w)).1 = 1).
Proof.
  destruct (w_may_write w (cache_path a)) eqn:Hw.
  - rewrite (write_cache_file_ok a w Hw), result_eq. simpl. tauto.
  - rewrite (write_cache_file_fails a w Hw), result_eq. simpl. tauto.
Qed.

End Claims.

(** ** The results on the example machine *)

Module Examples.

Import Example Example2.

(** C1 on the example: home.example.com has a cache file with
    203.0.113.7 in it, stamped [T0], and its record holds another address
    and time; the pass yields the address and the time of the file, and
    the three lookups of the pass are for other names. *)
Lemma seeding_cache_hit_home :
  ∃ a',
    seeded (H := example_h) stale_ctx example_world 0 0 = Some a' ∧
    name a' = "home.example.com"%string ∧
    address_str a' = text "203.0.113.7" ∧
    last_update a' = T0 ∧
    in_pass (H := example_h) stale_ctx example_world
      (alias_events (H := example_h) stale_dyndns stale_home example_world) ∧
    count_events is_resolver_call
      (alias_events (H := example_h) stale_dyndns stale_home example_world)
      = 0%nat ∧
    events (read_cache_file (H := example_h) (Some stale_ctx) example_world) =
      EvResInit
      :: pass_before (H := example_h) stale_ctx example_world 0 0
      ++ alias_events (H := example_h) stale_dyndns stale_home example_world
      ++ pass_after (H := example_h) stale_ctx example_world 0 0 ∧
    lookup_nodes
      (events (read_cache_file (H := example_h) (Some stale_ctx)
                 example_world))
      = ["www.example.com"; "odd.example.com"; "gone.example.com"]%string ∧
    needs_lookup (H := example_h) example_world stale_dyndns stale_home
      = false ∧
    "home.example.com"%string ∉
      lookup_nodes
        (events (read_cache_file (H := example_h) (Some stale_ctx)
                   example_world)).
Proof.
  refine (seeding_cache_hit (H := example_h) stale_ctx example_world 0 0
            stale_dyndns stale_home (File (text "203.0.113.7") T0) _ _ _);
    vm_compute; reflexivity.
Defined.

(** C2 at the failing input: gone.example.com has no cache file of its
    own and the old shared cache file is there.  The pass never opens
    the old file, leaves it where it is, and seeds the alias with the
    empty address and a zero last_update (the lookup of the name
    fails). *)
Theorem legacy_cache_file_ignored :
  w_files example_world !! cache_path (H := example_h) gone = None ∧
  w_files example_world !! legacy_path
    = Some (File (text "192.0.2.1") (T0 - 3600)) ∧
  (legacy_path ∉
     opened_paths
       (events (read_cache_file (H := example_h) (Some example_ctx)
                  example_world))) ∧
  w_files
    (final (read_cache_file (H := example_h) (Some example_ctx)
              example_world)) !! legacy_path
    = Some (File (text "192.0.2.1") (T0 - 3600)) ∧
  seeded (H := example_h) example_ctx example_world 0 3
    = Some (Alias "gone.example.com" (memset NUL 46) 0).
Proof.
  split_and!; try (vm_compute; reflexivity).
  apply (bool_decide_unpack _). vm_compute. reflexivity.
Qed.

(** C3 refuted as stated: odd.example.com resolves to an address that
    has no numeric form, a textual-conversion failure, and [nslookup]
    returns 0 for it. *)
Lemma nslookup_conversion_failure :
  ¬ (resolve (H := example_h) example_world (name odd) = None →
     (result (nslookup (H := example_h) odd example_world)).1 ≠ 0).
Proof. intros Hclaim. by apply Hclaim. Qed.

(** C4 on the example: tunnel.example.com, of the tunnelbroker group,
    has no cache file, and its record holds an address and a time. *)
Lemma seeding_no_hostname_tunnel :
  ∃ a',
    seeded (H := example_h) stale_ctx example_world 1 0 = Some a' ∧
    name a' = "tunnel.example.com"%string ∧
    address_str a' = [] ∧
    last_update a' = 0 ∧
    in_pass (H := example_h) stale_ctx example_world
      (alias_events (H := example_h) stale_tunnelbroker stale_tunnel
         example_world) ∧
    count_events is_resolver_call
      (alias_events (H := example_h) stale_tunnelbroker stale_tunnel
         example_world) = 0%nat ∧
    alias_events (H := example_h) stale_tunnelbroker stale_tunnel
      example_world
      = [EvFopen "/var/run/inadyn/tunnel.example.com.cache" ModeR false] ∧
    events (read_cache_file (H := example_h) (Some stale_ctx) example_world) =
      EvResInit
      :: pass_before (H := example_h) stale_ctx example_world 1 0
      ++ alias_events (H := example_h) stale_tunnelbroker stale_tunnel
           example_world
      ++ pass_after (H := example_h) stale_ctx example_world 1 0 ∧
    lookup_nodes
      (events (read_cache_file (H := example_h) (Some stale_ctx)
                 example_world))
      = ["www.example.com"; "odd.example.com"; "gone.example.com"]%string ∧
    needs_lookup (H := example_h) example_world stale_tunnelbroker
      stale_tunnel = false ∧
    ("tunnel.example.com"%string ∈
       lookup_nodes
         (events (read_cache_file (H := example_h) (Some stale_ctx)
                    example_world)) →
     ∃ i' j' g' b,
       info stale_ctx !! i' = Some g' ∧ alias g' !! j' = Some b ∧
       name b = "tunnel.example.com"%string ∧
       system_name (system g') ≠ "ipv6tb@he.net"%string).
Proof.
  refine (seeding_no_hostname (H := example_h) stale_ctx example_world
            1 0 stale_tunnelbroker stale_tunnel _ _ _ _);
    vm_compute; reflexivity.
Defined.

(** C5 on the example: www.example.com has no cache file and resolves to
    198.51.100.7. *)
Lemma seeding_fallback_www :
  ∃ a',
    seeded (H := example_h) example_ctx example_world 0 1 = Some a' ∧
    address_str a' = text "198.51.100.7" ∧
    last_update a' = 0.
Proof.
  destruct (seeding_fallback (H := example_h) example_ctx example_world
              0 1 dyndns www) as (a' & Hs & _ & Hu & Hok & _).
  - vm_compute; reflexivity.
  - vm_compute; reflexivity.
  - vm_compute. discriminate.
  - vm_compute; reflexivity.
  - exists a'. split_and!; [exact Hs | | exact Hu].
    apply Hok. vm_compute; reflexivity.
Defined.

(** C6 on the example: the code for an invalid pointer is 2. *)
Lemma read_cache_file_returns_null :
  (result (read_cache_file (H := example_h) None example_world)).1 = 2 ∧
  (result (read_cache_file (H := example_h) None example_world)).2 = None ∧
  events (read_cache_file (H := example_h) None example_world)
    = [EvResInit].
Proof.
  destruct (read_cache_file_returns (H := example_h) None example_world)
    as (Hrc & Hnull & _).
  - vm_compute. discriminate.
  - destruct (Hnull eq_refl) as [Hctx Hev].
    split_and!; [by apply Hrc | exact Hctx | exact Hev].
Defined.

(** C8 refuted as stated: on a full disk the write of 203.0.113.9 for
    gone.example.com returns 0, the address fits the buffer, and what is
    read back is the empty string. *)
Lemma round_trip_full_disk :
  ¬ ((result (write_cache_file (H := example_h) updated full_disk_world)).1
       = 0 →
     (length (address_str updated) < 46)%nat →
     address_str
       (result
          (read_one (H := example_h) gone 0
             (final (write_cache_file (H := example_h) updated
                       full_disk_world))))
       = address_str updated).
Proof.
  intros Hclaim.
  assert (length (address_str updated) < 46)%nat as Hlen
    by (vm_compute; lia).
  specialize (Hclaim eq_refl Hlen). vm_compute in Hclaim. discriminate.
Qed.

(** C8 on the example: 203.0.113.9 is written for gone.example.com at
    the time of the example machine, whose disk takes it, and read back a
    minute later. *)
Lemma write_then_read_updated :
  ∃ f,
    w_files (final (write_cache_file (H := example_h) updated
                      example_world))
      !! cache_path (H := example_h) updated = Some f ∧
    f_data f = text "203.0.113.9" ∧
    f_mtime f = T0 + 86400 ∧
    address_str
      (result
         (read_one (H := example_h) gone 0
            (set_time (T0 + 86460)
               (final (write_cache_file (H := example_h) updated
                         example_world)))))
      = text "203.0.113.9" ∧
    last_update
      (result
         (read_one (H := example_h) gone 0
            (set_time (T0 + 86460)
               (final (write_cache_file (H := example_h) updated
                         example_world)))))
      = f_mtime f.
Proof.
  refine (write_then_read (H := example_h) updated gone 0 example_world
            (T0 + 86460) _ _ _ _ _ _).
  - vm_compute; reflexivity.
  - reflexivity.
  - reflexivity.
  - vm_compute; lia.
  - vm_compute; reflexivity.
  - reflexivity.
Defined.

(** C9 on the example: empty.example.com has an empty cache file,
    stamped a minute after [T0], and its record holds an address and a
    time. *)
Lemma seeding_empty_cache_file_empty :
  ∃ a',
    seeded (H := example_h) stale_ctx example_world 0 4 = Some a' ∧
    address a' = memset NUL 46 ∧
    address_str a' = [] ∧
    last_update a' = T0 + 60 ∧
    in_pass (H := example_h) stale_ctx example_world
      (alias_events (H := example_h) stale_dyndns stale_empty
         example_world) ∧
    count_events is_resolver_call
      (alias_events (H := example_h) stale_dyndns stale_empty example_world)
      = 0%nat ∧
    events (read_cache_file (H := example_h) (Some stale_ctx) example_world) =
      EvResInit
      :: pass_before (H := example_h) stale_ctx example_world 0 4
      ++ alias_events (H := example_h) stale_dyndns stale_empty example_world
      ++ pass_after (H := example_h) stale_ctx example_world 0 4 ∧
    lookup_nodes
      (events (read_cache_file (H := example_h) (Some stale_ctx)
                 example_world))
      = ["www.example.com"; "odd.example.com"; "gone.example.com"]%string ∧
    needs_lookup (H := example_h) example_world stale_dyndns stale_empty
      = false ∧
    "empty.example.com"%string ∉
      lookup_nodes
        (events (read_cache_file (H := example_h) (Some stale_ctx)
                   example_world)).
Proof.
  refine (seeding_empty_cache_file (H := example_h) stale_ctx example_world
            0 4 stale_dyndns stale_empty (File [] (T0 + 60)) _ _ _ _);
    vm_compute; reflexivity.
Defined.

End Examples.

(** ** Further properties of cache.c *)

Section MoreProperties.

Context `{ddns_h}.

Lemma length_strncpy (src : list ascii) (n : nat) : length (strncpy src n) = n.
Proof.
  unfold strncpy. rewrite length_app, length_take, length_replicate. lia.
Qed.

Lemma cstr_no_NUL (s : list ascii) : NUL ∉ s → cstr s = s.
Proof.
  induction s as [|c s IH]; [done|]. intros Hs. simpl.
  destruct (decide (c = NUL)) as [->|Hc].
  - exfalso. apply Hs. by left.
  - f_equal. apply IH. intros Hin. apply Hs. by right.
Qed.

Lemma read_line_no_LF (k : nat) (s : list ascii) :
  LF ∉ take k s → read_line k s = take k s.
Proof.
  revert s. induction k as [|k IH]; intros [|c s] Hs; try done.
  simpl in *. destruct (decide (c = LF)) as [->|Hc].
  - exfalso. apply Hs. by left.
  - f_equal. apply IH. intros Hin. apply Hs. by right.
Qed.

Lemma read_line_to_LF (k : nat) (line rest : list ascii) :
  LF ∉ line → (length line < k)%nat →
  read_line k (line ++ LF :: rest) = line ++ [LF].
Proof.
  revert k. induction line as [|c line IH]; intros k Hl Hk.
  - destruct k; [simpl in Hk; lia|]. simpl. by destruct (decide (LF = LF)).
  - destruct k; [simpl in Hk; lia|]. simpl in *.
    destruct (decide (c = LF)) as [->|Hc].
    + exfalso. apply Hl. by left.
    + f_equal. apply IH; [|lia]. intros Hin. apply Hl. by right.
Qed.

(** [read_one] looks at nothing of the record it is given but its name. *)
Lemma read_one_name_only (a b : ddns_alias_t) (ns : Z) (w : world) :
  name a = name b → read_one a ns w = read_one b ns w.
Proof.
  intros Hn. unfold read_one, cache_path, set_address, set_last_update.
  cbn [name address last_update]. by rewrite Hn.
Qed.

Lemma nslookup_name (a : ddns_alias_t) (w : world) :
  name (result (nslookup a w)).2 = name a.
Proof.
  destruct (w_lookup w (name a)) as [e|sa rest] eqn:Hl.
  - by rewrite (nslookup_error _ _ _ Hl).
  - destruct (numeric_host w sa MAX_ADDRESS_LEN) as [host|] eqn:Hn.
    + by rewrite (nslookup_converted _ _ _ _ _ Hl Hn).
    + by rewrite (nslookup_not_converted _ _ _ _ Hl Hn).
Qed.

Lemma read_one_name (a : ddns_alias_t) (ns : Z) (w : world) :
  name (result (read_one a ns w)) = name a.
Proof.
  destruct (w_files w !! cache_path a) as [f|] eqn:Hf.
  - destruct (read_one_hit a ns w f Hf) as (Hr & _). by rewrite Hr.
  - destruct (decide (ns = 0)) as [->|Hns].
    + rewrite (read_one_miss_lookup a w Hf), result_eq.
      apply (nslookup_name (reset a) w).
    + by rewrite (read_one_miss_exempt a ns w Hf Hns).
Qed.

(** What [read_one] makes of last_update: the time of the cache file, or
    the 0 it was reset to. *)
Lemma read_one_last_update (a : ddns_alias_t) (ns : Z) (w : world) :
  last_update (result (read_one a ns w)) = cached_mtime w a.
Proof.
  unfold cached_mtime.
  destruct (w_files w !! cache_path a) as [f|] eqn:Hf.
  - destruct (read_one_hit a ns w f Hf) as (Hr & _). by rewrite Hr.
  - destruct (decide (ns = 0)) as [->|Hns].
    + rewrite (read_one_miss_lookup a w Hf), result_eq.
      destruct (w_lookup w (name (reset a))) as [e|sa rest] eqn:Hl.
      * by rewrite (nslookup_error _ _ _ Hl).
      * destruct (numeric_host w sa MAX_ADDRESS_LEN) as [host|] eqn:Hn.
        -- by rewrite (nslookup_converted _ _ _ _ _ Hl Hn).
        -- by rewrite (nslookup_not_converted _ _ _ _ Hl Hn).
    + by rewrite (read_one_miss_exempt a ns w Hf Hns).
Qed.

(** The address buffer after [read_one]: of full length, and holding a
    string that leaves room for its NUL. *)
Lemma read_one_address (a : ddns_alias_t) (ns : Z) (w : world) :
  length (address (result (read_one a ns w))) = MAX_ADDRESS_LEN ∧
  (length (address_str (result (read_one a ns w))) ≤ MAX_ADDRESS_LEN - 1)%nat.
Proof.
  assert (∀ b, address b = memset NUL MAX_ADDRESS_LEN →
               length (address b) = MAX_ADDRESS_LEN ∧
               (length (address_str b) ≤ MAX_ADDRESS_LEN - 1)%nat) as Hreset.
  { intros b Hb. unfold address_str. rewrite Hb. unfold memset.
    rewrite cstr_replicate_NUL, length_replicate. simpl. lia. }
  destruct (w_files w !! cache_path a) as [f|] eqn:Hf.
  - destruct (read_one_hit a ns w f Hf) as (Hr & _). rewrite Hr.
    unfold address_str. simpl. rewrite length_strncpy, cstr_fgets_line.
    split; [done|]. etrans; [apply length_cstr | apply length_read_line].
  - destruct (decide (ns = 0)) as [->|Hns].
    + rewrite (read_one_miss_lookup a w Hf), result_eq.
      destruct (w_lookup w (name (reset a))) as [e|sa rest] eqn:Hl.
      * rewrite (nslookup_error _ _ _ Hl). by apply Hreset.
      * destruct (numeric_host w sa MAX_ADDRESS_LEN) as [host|] eqn:Hn.
        -- rewrite (nslookup_converted _ _ _ _ _ Hl Hn).
           destruct (numeric_host_fits _ _ _ _ Hn) as [Hc Hlen].
           unfold address_str. simpl.
           rewrite length_strncpy, cstr_strncpy by (rewrite Hc; lia).
           rewrite Hc. split; [done | lia].
        -- rewrite (nslookup_not_converted _ _ _ _ Hl Hn). by apply Hreset.
    + rewrite (read_one_miss_exempt a ns w Hf Hns). by apply Hreset.
Qed.

(** The calls of a cache hit, counted. *)
Lemma read_one_hit_counts (a : ddns_alias_t) (ns : Z) (w : world) (f : file) :
  w_files w !! cache_path a = Some f →
  count_events is_lookup (events (read_one a ns w)) = 0%nat ∧
  count_events is_fopen_ok (events (read_one a ns w)) = 1%nat ∧
  count_events is_fclose (events (read_one a ns w)) = 1%nat.
Proof.
  intros Hf.
  unfold read_one, sizeof_address, cache_path in *.
  destruct f as [data mtime].
  destruct MAX_ADDRESS_LEN as [|k] eqn:Hk; [|destruct data as [|c data]];
    repeat (run; rewrite ?Hf); done.
Qed.

Lemma nslookup_counts (a : ddns_alias_t) (w : world) :
  count_events is_fopen_ok (events (nslookup a w)) = 0%nat ∧
  count_events is_fclose (events (nslookup a w)) = 0%nat ∧
  count_events is_freeaddrinfo (events (nslookup a w)) =
    match w_lookup w (name a) with
    | GaiResult _ _ => 1%nat
    | GaiError _ => 0%nat
    end.
Proof.
  destruct (w_lookup w (name a)) as [e|sa rest] eqn:Hl.
  - by rewrite (nslookup_error _ _ _ Hl).
  - destruct (numeric_host w sa MAX_ADDRESS_LEN) as [host|] eqn:Hn.
    + by rewrite (nslookup_converted _ _ _ _ _ Hl Hn).
    + by rewrite (nslookup_not_converted _ _ _ _ Hl Hn).
Qed.

Lemma count_events_cons (p : event → bool) (e : event) (t : list event) :
  count_events p (e :: t) =
    ((if p e then 1 else 0) + count_events p t)%nat.
Proof. unfold count_events. simpl. by destruct (p e). Qed.

Lemma alias_events_lookups (g : ddns_info_t) (a : ddns_alias_t) (w : world) :
  count_events is_lookup (alias_events g a w) =
    if needs_lookup w g a then 1%nat else 0%nat.
Proof.
  unfold alias_events, needs_lookup.
  destruct (w_files w !! cache_path a) as [f|] eqn:Hf.
  - destruct (read_one_hit_counts a (nonslookup_of g) w f Hf) as (-> & _).
    by rewrite andb_false_r.
  - rewrite (bool_decide_eq_true_2 (None = None)), andb_true_r by done.
    destruct (decide (nonslookup_of g = 0)) as [Hns|Hns].
    + rewrite Hns, (read_one_miss_lookup a w Hf), events_eq.
      rewrite count_events_cons. cbn [is_lookup Nat.add].
      by destruct (nslookup_events (reset a) w) as (_ & -> & _).
    + rewrite (read_one_miss_exempt a _ w Hf Hns), events_eq.
      by rewrite bool_decide_eq_false_2.
Qed.

Lemma alias_events_streams (g : ddns_info_t) (a : ddns_alias_t) (w : world) :
  count_events is_fopen_ok (alias_events g a w) =
  count_events is_fclose (alias_events g a w).
Proof.
  unfold alias_events.
  destruct (w_files w !! cache_path a) as [f|] eqn:Hf.
  - by destruct (read_one_hit_counts a (nonslookup_of g) w f Hf)
      as (_ & -> & ->).
  - destruct (decide (nonslookup_of g = 0)) as [Hns|Hns].
    + rewrite Hns, (read_one_miss_lookup a w Hf), events_eq.
      rewrite !count_events_cons. cbn [is_fopen_ok is_fclose Nat.add].
      by destruct (nslookup_counts (reset a) w) as (-> & -> & _).
    + by rewrite (read_one_miss_exempt a _ w Hf Hns), events_eq.
Qed.

Lemma count_events_concat_map {A} (p : event → bool) (f : A → list event)
    (l : list A) :
  count_events p (concat (map f l)) =
    sum_list (map (fun x => count_events p (f x)) l).
Proof.
  induction l as [|x l IH]; [done|].
  simpl. by rewrite count_events_app, IH.
Qed.

(** What [read_one] yields depends on the world only through the cache
    file of the alias and the answers of the resolver. *)
Lemma read_one_world_agree (a : ddns_alias_t) (ns : Z) (w1 w2 : world) :
  w_files w1 !! cache_path a = w_files w2 !! cache_path a →
  w_lookup w1 (name a) = w_lookup w2 (name a) →
  (∀ sa, w_numerichost w1 sa = w_numerichost w2 sa) →
  result (read_one a ns w1) = result (read_one a ns w2).
Proof.
  intros Hfiles Hlookup Hnum.
  assert (∀ sa, numeric_host w1 sa MAX_ADDRESS_LEN
                = numeric_host w2 sa MAX_ADDRESS_LEN) as Hnh
    by (intros sa; unfold numeric_host; by rewrite Hnum).
  destruct (w_files w2 !! cache_path a) as [f|] eqn:Hf.
  - destruct (read_one_hit a ns w1 f Hfiles) as (-> & _).
    by destruct (read_one_hit a ns w2 f Hf) as (-> & _).
  - destruct (decide (ns = 0)) as [->|Hns].
    + rewrite (read_one_miss_lookup a w1 Hfiles),
        (read_one_miss_lookup a w2 Hf), !result_eq.
      change (name a) with (name (reset a)) in Hlookup.
      destruct (w_lookup w2 (name (reset a))) as [e|sa rest] eqn:Hl.
      * by rewrite (nslookup_error _ _ _ Hlookup), (nslookup_error _ _ _ Hl).
      * destruct (numeric_host w2 sa MAX_ADDRESS_LEN) as [host|] eqn:Hn.
        -- rewrite (nslookup_converted _ w2 _ _ _ Hl Hn).
           rewrite <- Hnh in Hn.
           by rewrite (nslookup_converted _ w1 _ _ _ Hlookup Hn).
        -- rewrite (nslookup_not_converted _ w2 _ _ Hl Hn).
           rewrite <- Hnh in Hn.
           by rewrite (nslookup_not_converted _ w1 _ _ Hlookup Hn).
    + by rewrite (read_one_miss_exempt a ns w1 Hfiles Hns),
        (read_one_miss_exempt a ns w2 Hf Hns).
Qed.

(** Every alias of a seeded context comes from [read_one] on the alias
    that was in its place. *)
Lemma seeded_inv (ctx : ddns_t) (w : world) (i j : nat) a' :
  seeded ctx w i j = Some a' →
  ∃ g a,
    info ctx !! i = Some g ∧ alias g !! j = Some a ∧
    a' = result (read_one a (nonslookup_of g) w).
Proof.
  unfold seeded. rewrite read_cache_file_ctx, result_eq.
  unfold alias_at. cbn [snd info]. rewrite list_lookup_fmap.
  destruct (info ctx !! i) as [g|] eqn:Hi; [|done].
  cbn [fmap option_fmap option_map]. rewrite read_info_eq, result_eq.
  cbn [alias]. rewrite list_lookup_fmap.
  destruct (alias g !! j) as [a|] eqn:Hj; [|done].
  cbn [fmap option_fmap option_map]. intros [= <-]. by exists g, a.
Qed.

Lemma length_substring (n m : nat) (s : string) :
  (String.length (substring n m s) ≤ m)%nat.
Proof.
  revert n m. induction s as [|c s IH]; intros n m.
  - destruct n, m; simpl; lia.
  - destruct n as [|n]; [destruct m as [|m]|]; simpl; try lia.
    + specialize (IH 0%nat m). lia.
    + apply IH.
Qed.

End MoreProperties.

(** ** Further results *)

Section Extras.

Context `{ddns_h}.

(** X1.  A seeding pass only reads: the world after [read_cache_file] is
    the world before it, with or without a context.  No file is created,
    changed or removed. *)
Theorem seeding_leaves_world (ctx : option ddns_t) (w : world) :
  final (read_cache_file ctx w) = w.
Proof.
  destruct ctx as [ctx|]; [|by rewrite read_cache_file_null].
  by rewrite read_cache_file_ctx.
Qed.

(** X2.  A seeding pass opens the cache file path of every alias exactly
    once, in the order of the groups and of the aliases in them, and
    opens no other path. *)
Theorem seeding_opens_cache_paths (ctx : ddns_t) (w : world) :
  opened_paths (events (read_cache_file (Some ctx) w)) = cache_paths ctx.
Proof.
  rewrite read_cache_file_ctx, events_eq.
  change (EvResInit :: ?t) with ([EvResInit] ++ t).
  rewrite opened_paths_app. change (opened_paths [EvResInit]) with (@nil string).
  rewrite app_nil_l, opened_paths_concat_map. unfold cache_paths.
  f_equal. apply map_ext. intros g.
  rewrite read_info_eq, events_eq, opened_paths_concat_map.
  induction (alias g) as [|a l IH]; [done|].
  simpl. rewrite IH. unfold alias_events.
  by destruct (read_one_events a (nonslookup_of g) w) as [_ ->].
Qed.

(** X3.  What a pass makes of an alias depends on the name of the alias,
    on the provider of its group and on the world, and on nothing else:
    not on the address and time the record held, not on its place, not on
    the other aliases.  Two contexts that have an alias of the same name
    under the same provider seed it alike. *)
Theorem seeding_by_name (ctx1 ctx2 : ddns_t) (w : world)
    (i1 j1 i2 j2 : nat) g1 a1 g2 a2 :
  info ctx1 !! i1 = Some g1 → alias g1 !! j1 = Some a1 →
  info ctx2 !! i2 = Some g2 → alias g2 !! j2 = Some a2 →
  name a1 = name a2 →
  system_name (system g1) = system_name (system g2) →
  seeded ctx1 w i1 j1 = seeded ctx2 w i2 j2.
Proof.
  intros Hi1 Hj1 Hi2 Hj2 Hn Hs.
  destruct (seeded_alias ctx1 w i1 j1 g1 a1 Hi1 Hj1) as [-> _].
  destruct (seeded_alias ctx2 w i2 j2 g2 a2 Hi2 Hj2) as [-> _].
  assert (nonslookup_of g1 = nonslookup_of g2) as ->
    by (unfold nonslookup_of; by rewrite Hs).
  by rewrite (read_one_name_only a1 a2 _ w Hn).
Qed.

(** X4.  Seeding again is idle: a second pass over the context the first
    pass handed back, in the world it left, returns the same code and the
    same context and makes the same calls. *)
Theorem reseed_idempotent (ctx : option ddns_t) (w : world) :
  read_cache_file (result (read_cache_file ctx w)).2
                  (final (read_cache_file ctx w))
  = read_cache_file ctx w.
Proof.
  destruct ctx as [ctx|]; [|by rewrite read_cache_file_null].
  rewrite (read_cache_file_ctx ctx), result_eq, final_eq. cbn [snd].
  rewrite read_cache_file_ctx. cbn [info].
  assert (∀ g, read_info (result (read_info g w)) w = read_info g w) as Hg.
  { intros g. rewrite (read_info_eq g), result_eq, read_info_eq.
    cbn [alias system].
    change (nonslookup_of (Info (system g) ?l)) with (nonslookup_of g).
    unfold alias_events.
    change (nonslookup_of (Info (system g) ?l)) with (nonslookup_of g).
    rewrite !map_map.
    assert (∀ a, read_one (result (read_one a (nonslookup_of g) w))
                   (nonslookup_of g) w
                 = read_one a (nonslookup_of g) w) as Ha
      by (intros a; apply read_one_name_only, read_one_name).
    rewrite (map_ext _ (fun a => result (read_one a (nonslookup_of g) w)))
      by (intros a; by rewrite Ha).
    by rewrite (map_ext _ (fun a => events (read_one a (nonslookup_of g) w)))
      by (intros a; by rewrite Ha). }
  rewrite !map_map.
  rewrite (map_ext _ (fun g => result (read_info g w)))
    by (intros g; by rewrite Hg).
  by rewrite (map_ext _ (fun g => events (read_info g w)))
    by (intros g; by rewrite Hg).
Qed.

(** X5.  A pass keeps the shape of the context: as many groups, each with
    its provider and with as many aliases, each alias under its name. *)
Theorem seeding_keeps_shape (ctx : ddns_t) (w : world) :
  ∃ ctx',
    result (read_cache_file (Some ctx) w) = (0, Some ctx') ∧
    map system (info ctx') = map system (info ctx) ∧
    map (fun g => map name (alias g)) (info ctx')
      = map (fun g => map name (alias g)) (info ctx).
Proof.
  rewrite read_cache_file_ctx, result_eq. eexists. split; [done|].
  cbn [info]. rewrite !map_map. split.
  - apply map_ext. intros g. by rewrite read_info_eq.
  - apply map_ext. intros g. rewrite read_info_eq, result_eq. cbn [alias].
    rewrite map_map. apply map_ext. intros a. apply read_one_name.
Qed.

(** X6.  The lookup counter of a pass: [getaddrinfo] is called once for
    every alias that has no cache file to open and whose group is not
    exempt, and for no other alias. *)
Theorem seeding_lookup_count (ctx : ddns_t) (w : world) :
  count_events is_lookup (events (read_cache_file (Some ctx) w))
  = lookups_needed w ctx.
Proof.
  rewrite read_cache_file_ctx, events_eq, count_events_cons.
  cbn [is_lookup Nat.add]. rewrite count_events_concat_map.
  unfold lookups_needed. f_equal. apply map_ext. intros g.
  rewrite read_info_eq, events_eq, count_events_concat_map.
  induction (alias g) as [|a l IH]; [done|].
  simpl. rewrite IH, alias_events_lookups.
  by destruct (needs_lookup w g a).
Qed.

(** X7.  The last_update of a seeded alias is the modification time of
    its cache file, and 0 when there is none; the resolver and the
    exemption have no part in it. *)
Theorem seeding_last_update (ctx : ddns_t) (w : world) (i j : nat) g a :
  info ctx !! i = Some g →
  alias g !! j = Some a →
  ∃ a', seeded ctx w i j = Some a' ∧ last_update a' = cached_mtime w a.
Proof.
  intros Hi Hj. destruct (seeded_alias ctx w i j g a Hi Hj) as [Hs _].
  eexists. split; [exact Hs|]. apply read_one_last_update.
Qed.

(** X8.  Whatever the cache file or the resolver delivers, the address
    buffer of a seeded alias has its full length and holds a string that
    leaves room for the terminating NUL. *)
Theorem seeded_address_bounded (ctx : ddns_t) (w : world) (i j : nat) a' :
  seeded ctx w i j = Some a' →
  length (address a') = MAX_ADDRESS_LEN ∧
  (length (address_str a') ≤ MAX_ADDRESS_LEN - 1)%nat.
Proof.
  intros (g & a & _ & _ & ->)%seeded_inv. apply read_one_address.
Qed.

(** X9.  A cache file whose first line is too long is cut, not refused:
    when the first [MAX_ADDRESS_LEN - 1] characters of the file have no
    line feed and no NUL among them, they are the address. *)
Theorem read_one_cuts_long_line (a : ddns_alias_t) (ns : Z) (w : world) f :
  w_files w !! cache_path a = Some f →
  LF ∉ take (MAX_ADDRESS_LEN - 1) (f_data f) →
  NUL ∉ take (MAX_ADDRESS_LEN - 1) (f_data f) →
  address_str (result (read_one a ns w))
  = take (MAX_ADDRESS_LEN - 1) (f_data f).
Proof.
  intros Hf Hlf Hnul. destruct (read_one_hit a ns w f Hf) as (-> & _).
  unfold address_str. simpl.
  rewrite cstr_fgets_line, read_line_no_LF by done. by apply cstr_no_NUL.
Qed.

(** X10.  The line feed that ends the first line of a cache file is taken
    into the address: nothing strips it. *)
Theorem read_one_keeps_line_feed (a : ddns_alias_t) (ns : Z) (w : world) f
    (line rest : list ascii) :
  w_files w !! cache_path a = Some f →
  f_data f = line ++ LF :: rest →
  LF ∉ line → NUL ∉ line →
  (length line < MAX_ADDRESS_LEN - 1)%nat →
  address_str (result (read_one a ns w)) = line ++ [LF].
Proof.
  intros Hf Hdata Hlf Hnul Hlen.
  destruct (read_one_hit a ns w f Hf) as (-> & _).
  unfold address_str. simpl.
  rewrite cstr_fgets_line, Hdata, read_line_to_LF by done.
  apply cstr_no_NUL. intros [Hin|Hin]%elem_of_app; [done|].
  by apply list_elem_of_singleton in Hin.
Qed.

(** X11.  A pass closes every stream it opened: it has as many [fclose]
    calls as [fopen] calls that succeeded, with or without a context. *)
Theorem seeding_closes_streams (ctx : option ddns_t) (w : world) :
  count_events is_fopen_ok (events (read_cache_file ctx w))
  = count_events is_fclose (events (read_cache_file ctx w)).
Proof.
  destruct ctx as [ctx|]; [|by rewrite read_cache_file_null].
  rewrite read_cache_file_ctx, events_eq, !count_events_cons.
  cbn [is_fopen_ok is_fclose Nat.add]. rewrite !count_events_concat_map.
  f_equal. apply map_ext. intros g.
  rewrite read_info_eq, events_eq, !count_events_concat_map.
  f_equal. apply map_ext. intros a. apply alias_events_streams.
Qed.

(** X12.  [nslookup] frees the result list exactly when the lookup gave
    one, also when the conversion of the first result fails, and makes no
    such call after a failed lookup. *)
Theorem nslookup_frees_results (a : ddns_alias_t) (w : world) :
  count_events is_freeaddrinfo (events (nslookup a w)) =
    match w_lookup w (name a) with
    | GaiResult _ _ => 1%nat
    | GaiError _ => 0%nat
    end.
Proof.
  destruct (w_lookup w (name a)) as [e|sa rest] eqn:Hl.
  - by rewrite (nslookup_error _ _ _ Hl).
  - destruct (numeric_host w sa MAX_ADDRESS_LEN) as [host|] eqn:Hn.
    + by rewrite (nslookup_converted _ _ _ _ _ Hl Hn).
    + by rewrite (nslookup_not_converted _ _ _ _ Hl Hn).
Qed.

(** X13.  For a group of the provider "ipv6tb@he.net" the resolver is
    never called, whether its aliases have cache files or not. *)
Theorem exempt_group_no_resolver (g : ddns_info_t) (w : world) :
  system_name (system g) = "ipv6tb@he.net"%string →
  count_events is_resolver_call (events (read_info g w)) = 0%nat.
Proof.
  intros Hg. rewrite read_info_eq, events_eq.
  apply count_events_concat_0. intros a. unfold alias_events.
  destruct (w_files w !! cache_path a) as [f|] eqn:Hf.
  - by destruct (read_one_hit a (nonslookup_of g) w f Hf) as (_ & _ & ? & _).
  - by rewrite (read_one_miss_exempt a _ w Hf
                  (nonslookup_of_tunnelbroker g Hg)).
Qed.

(** X14.  [write_cache_file] returns 1 exactly when the cache file cannot
    be opened for writing, and then it has changed nothing and its one
    call is the failed [fopen].  Otherwise it returns 0, whether or not
    its output reached the file, for it looks at the result of neither
    [fprintf] nor [fclose]: the file then holds a leading part of the
    address string and nothing of what it held before, the whole string
    when both calls succeed, stamped with the time of the write, and the
    stream is closed. *)
Theorem write_cache_file_returns (a : ddns_alias_t) (w : world) :
  ((result (write_cache_file a w)).1 = 1 ↔
     w_may_write w (cache_path a) = false) ∧
  ((result (write_cache_file a w)).1 = 1 →
     final (write_cache_file a w) = w ∧
     events (write_cache_file a w) = [EvFopen (cache_path a) ModeW false]) ∧
  ((result (write_cache_file a w)).1 ≠ 1 →
     (result (write_cache_file a w)).1 = 0 ∧
     w_files (final (write_cache_file a w)) !! cache_path a
       = Some (File (written w (cache_path a) (address_str a)) (w_time w)) ∧
     (∃ n, written w (cache_path a) (address_str a)
           = take n (address_str a)) ∧
     (w_print_ok w (cache_path a) = true →
      w_flush w (cache_path a) = None →
      written w (cache_path a) (address_str a) = address_str a) ∧
     count_events is_fopen_ok (events (write_cache_file a w)) = 1%nat ∧
     count_events is_fclose (events (write_cache_file a w)) = 1%nat).
Proof.
  destruct (w_may_write w (cache_path a)) eqn:Hw.
  - rewrite (write_cache_file_ok a w Hw), result_eq, final_eq, events_eq.
    cbn [fst]. split_and!; try done.
    intros _. split_and!; try done.
    + simpl. apply lookup_insert_eq.
    + apply written_prefix.
    + apply written_whole.
  - rewrite (write_cache_file_fails a w Hw), result_eq, final_eq, events_eq.
    cbn [fst]. by split_and!.
Qed.

(** X15.  [write_cache_file] touches the cache file of its alias and
    nothing else: every other path holds what it held, and the clock, the
    permissions and the resolver are as they were. *)
Theorem write_cache_file_frame_world (a : ddns_alias_t) (w : world) :
  (∀ path, path ≠ cache_path a →
     w_files (final (write_cache_file a w)) !! path = w_files w !! path) ∧
  w_time (final (write_cache_file a w)) = w_time w ∧
  w_may_write (final (write_cache_file a w)) = w_may_write w ∧
  w_lookup (final (write_cache_file a w)) = w_lookup w ∧
  w_numerichost (final (write_cache_file a w)) = w_numerichost w.
Proof.
  destruct (w_may_write w (cache_path a)) eqn:Hw.
  - rewrite (write_cache_file_ok a w Hw), final_eq. split_and!; try done.
    intros path Hp. simpl. by rewrite !lookup_insert_ne.
  - by rewrite (write_cache_file_fails a w Hw), final_eq.
Qed.

(** X16.  The last write wins: whatever an earlier write for an alias
    left in the cache file, a later write for an alias of the same name
    that returns 0 and whose output reaches the file leaves the second
    address in the file and nothing else, stamped with the time of the
    second write; every other file is as it was before the first
    write. *)
Theorem write_cache_file_twice (a1 a2 : ddns_alias_t) (w w2 : world) :
  name a2 = name a1 →
  w_files w2 = w_files (final (write_cache_file a1 w)) →
  (result (write_cache_file a2 w2)).1 = 0 →
  w_print_ok w2 (cache_path a2) = true →
  w_flush w2 (cache_path a2) = None →
  w_files (final (write_cache_file a2 w2)) !! cache_path a1
    = Some (File (address_str a2) (w_time w2)) ∧
  ∀ path, path ≠ cache_path a1 →
    w_files (final (write_cache_file a2 w2)) !! path = w_files w !! path.
Proof.
  intros Hname Hfiles Hrc Hprint Hflush.
  assert (cache_path a2 = cache_path a1) as Hpath
    by (unfold cache_path; by rewrite Hname).
  destruct (w_may_write w2 (cache_path a2)) eqn:Hw2;
    [|by rewrite (write_cache_file_fails a2 w2 Hw2) in Hrc].
  rewrite (write_cache_file_ok a2 w2 Hw2), final_eq.
  rewrite (written_whole w2 _ _ Hprint Hflush), Hpath. simpl. split.
  - apply lookup_insert_eq.
  - intros path Hp. rewrite !lookup_insert_ne, Hfiles by done.
    destruct (w_may_write w (cache_path a1)) eqn:Hw.
    + rewrite (write_cache_file_ok a1 w Hw), final_eq. simpl.
      by rewrite !lookup_insert_ne.
    + by rewrite (write_cache_file_fails a1 w Hw), final_eq.
Qed.

(** X17.  Writing the cache file of one alias does not change what a pass
    makes of the aliases with other cache paths. *)
Theorem write_keeps_other_seeds (a : ddns_alias_t) (ctx : ddns_t)
    (w : world) (i j : nat) g b :
  info ctx !! i = Some g →
  alias g !! j = Some b →
  cache_path b ≠ cache_path a →
  seeded ctx (final (write_cache_file a w)) i j = seeded ctx w i j.
Proof.
  intros Hi Hj Hp.
  destruct (seeded_alias ctx w i j g b Hi Hj) as [-> _].
  destruct (seeded_alias ctx (final (write_cache_file a w)) i j g b Hi Hj)
    as [-> _].
  f_equal. apply read_one_world_agree.
  - destruct (w_may_write w (cache_path a)) eqn:Hw.
    + rewrite (write_cache_file_ok a w Hw), final_eq. simpl.
      by rewrite !lookup_insert_ne.
    + by rewrite (write_cache_file_fails a w Hw), final_eq.
  - destruct (w_may_write w (cache_path a)) eqn:Hw.
    + by rewrite (write_cache_file_ok a w Hw), final_eq.
    + by rewrite (write_cache_file_fails a w Hw), final_eq.
  - intros sa. destruct (w_may_write w (cache_path a)) eqn:Hw.
    + by rewrite (write_cache_file_ok a w Hw), final_eq.
    + by rewrite (write_cache_file_fails a w Hw), final_eq.
Qed.

(** X18.  The path of a cache file is a function of the name of the alias
    and never has more than 255 characters, however long the name is. *)
Theorem cache_path_bounded (a b : ddns_alias_t) :
  (String.length (cache_path a) ≤ 255)%nat ∧
  (name a = name b → cache_path a = cache_path b).
Proof.
  split.
  - unfold cache_path, snprintf. apply (length_substring 0 (256 - 1)).
  - intros Hn. unfold cache_path. by rewrite Hn.
Qed.

End Extras.

(** ** The further results on the example machines *)

Module MoreExamples.

Import Example Example2.

(** X3 on the example: home.example.com is seeded alike from the fresh
    context and from the one whose records hold other addresses. *)
Lemma seeding_by_name_home :
  seeded (H := example_h) example_ctx example_world 0 0
  = seeded (H := example_h) stale_ctx example_world 0 0.
Proof.
  refine (seeding_by_name (H := example_h) example_ctx stale_ctx
            example_world 0 0 0 0 dyndns home _ _ _ _ _ _ _ _);
    vm_compute; reflexivity.
Defined.

(** X7 on the example: home.example.com gets the time of its cache
    file. *)
Lemma seeding_last_update_home :
  ∃ a',
    seeded (H := example_h) example_ctx example_world 0 0 = Some a' ∧
    last_update a' = T0.
Proof.
  refine (seeding_last_update (H := example_h) example_ctx example_world
            0 0 dyndns home _ _);
    vm_compute; reflexivity.
Defined.

(** X8 on the example: the record of www.example.com after the pass. *)
Lemma seeded_address_bounded_www :
  length (strncpy (text "198.51.100.7") 46) = 46%nat ∧
  (length (cstr (strncpy (text "198.51.100.7") 46)) ≤ 45)%nat.
Proof.
  refine (seeded_address_bounded (H := example_h) example_ctx example_world
            0 1 (Alias "www.example.com" (strncpy (text "198.51.100.7") 46) 0)
            _).
  vm_compute; reflexivity.
Defined.

(** X9 on the example: of the fifty characters in the cache file of
    long.example.com the first forty-five are the address. *)
Lemma read_one_cuts_long_line_long :
  address_str (result (read_one (H := example_h) long 0 edited_world))
  = text "2001:0db8:0000:0000:0000:0000:0000:0001 and m".
Proof.
  refine (read_one_cuts_long_line (H := example_h) long 0 edited_world
            (File (text "2001:0db8:0000:0000:0000:0000:0000:0001 and more!!")
                  T0) _ _ _).
  - vm_compute; reflexivity.
  - apply (bool_decide_unpack _). vm_compute; reflexivity.
  - apply (bool_decide_unpack _). vm_compute; reflexivity.
Defined.

(** X10 on the example: the address of nl.example.com ends in the line
    feed of its cache file. *)
Lemma read_one_keeps_line_feed_nl :
  address_str (result (read_one (H := example_h) nl 0 edited_world))
  = text "203.0.113.7" ++ [LF].
Proof.
  refine (read_one_keeps_line_feed (H := example_h) nl 0 edited_world
            (File (text "203.0.113.7" ++ [LF] ++ text "198.51.100.7")
                  (T0 + 5))
            (text "203.0.113.7") (text "198.51.100.7") _ _ _ _ _).
  - vm_compute; reflexivity.
  - reflexivity.
  - apply (bool_decide_unpack _). vm_compute; reflexivity.
  - apply (bool_decide_unpack _). vm_compute; reflexivity.
  - vm_compute; lia.
Defined.

(** X13 on the example: the tunnelbroker group. *)
Lemma exempt_group_no_resolver_tunnelbroker :
  count_events is_resolver_call
    (events (read_info (H := example_h) tunnelbroker example_world)) = 0%nat.
Proof.
  refine (exempt_group_no_resolver (H := example_h) tunnelbroker
            example_world _).
  reflexivity.
Defined.

(** X16 on the example: 203.0.113.9 is written for gone.example.com on
    the disk that takes four characters, and later 203.0.113.10 on a disk
    that takes all. *)
Lemma write_cache_file_twice_gone :
  w_files
    (final (write_cache_file (H := example_h) updated_again
              (set_files
                 (w_files (final (write_cache_file (H := example_h) updated
                                    short_disk_world)))
                 (set_time (T0 + 90000) example_world))))
    !! cache_path (H := example_h) updated
  = Some (File (text "203.0.113.10") (T0 + 90000)) ∧
  ∀ path, path ≠ cache_path (H := example_h) updated →
    w_files
      (final (write_cache_file (H := example_h) updated_again
                (set_files
                   (w_files (final (write_cache_file (H := example_h)
                                      updated short_disk_world)))
                   (set_time (T0 + 90000) example_world))))
      !! path
    = w_files short_disk_world !! path.
Proof.
  refine (write_cache_file_twice (H := example_h) updated updated_again
            short_disk_world
            (set_files
               (w_files (final (write_cache_file (H := example_h) updated
                                  short_disk_world)))
               (set_time (T0 + 90000) example_world))
            _ _ _ _ _);
    vm_compute; reflexivity.
Defined.

(** X17 on the example: after the write for gone.example.com a pass makes
    of home.example.com what it made of it before. *)
Lemma write_keeps_other_seeds_home :
  seeded (H := example_h) example_ctx
    (final (write_cache_file (H := example_h) updated example_world)) 0 0
  = seeded (H := example_h) example_ctx example_world 0 0.
Proof.
  refine (write_keeps_other_seeds (H := example_h) updated example_ctx
            example_world 0 0 dyndns home _ _ _).
  - vm_compute; reflexivity.
  - vm_compute; reflexivity.
  - vm_compute. discriminate.
Defined.

End MoreExamples.
